(** * get_intersight_server_sel.py: a shallow embedding and its properties

    The script lists the servers of an Intersight account, asks each one to
    generate its System Event Log, waits five seconds and downloads the
    generated files into the folder [SEL_logs].

    The embedding follows the Python text statement by statement.

    - The per-server dictionaries live in a heap ([heap]); a [server]
      argument is a reference (an index of the heap), so that the mutation a
      stage performs is seen by the later stages and by the second loop of
      [main], exactly as with the shared Python dicts.
    - Exceptions are results ([Raise]); [try_except] is the Python
      [try: ... except Exception as e: ...].
    - Everything outside the process (the Intersight SDK, [requests], the
      file system's willingness to create or open something) is a [world]:
      each external call asks the world for its reply at the current [clock],
      so a world is an arbitrary sequence of replies.  A world can only fail
      with [ExternalError]; the exceptions Python itself raises ([KeyError],
      [IndexError], [TypeError], [UnicodeDecodeError], [FileExistsError]) come
      from the modelled semantics.
    - Every print, external call and function entry is appended to [trace].

    Assumptions of the model: POSIX paths ([os.path.join] is [posixpath.join]);
    attribute values delivered by the SDK are strings; nothing but the script
    changes the file system during a run; the module-level set-up (lines
    38-65) has succeeded. *)

From stdpp Require Import gmap strings list fin_maps.
From Stdlib Require Import Strings.Byte Strings.Ascii NArith.

Local Open Scope string_scope.
Local Open Scope list_scope.

(** ** Values, exceptions, events *)

(** A per-server dict: string keys, string values. *)
Abbreviation record := (gmap string string).

(** Decoded text: a Python [str] as its sequence of code points. *)
Abbreviation text := (list N).

Inductive exn :=
| KeyError (key : string)
| IndexError
| TypeError (msg : string)
| UnicodeDecodeError
| FileExistsError (path : string)
| ExternalError (msg : string).

Inductive res (A : Type) :=
| Ok (a : A)
| Raise (e : exn).
Arguments Ok {A} a.
Arguments Raise {A} e.

(** What the outside world answers to a call. *)
Inductive reply (A : Type) :=
| Reply (a : A)
| Fault (msg : string).
Arguments Reply {A} a.
Arguments Fault {A} msg.

(** An element of [get_compute_physical_summary_list().results]. *)
Record physical_summary := {
  ps_moid : string;
  ps_management_mode : string
}.

(** An element of [get_equipment_end_point_log_list(...).results]. *)
Record end_point_log := {
  epl_moid : string;
  epl_file_name : string
}.

Inductive fn :=
| Fget_server_settings
| Fset_collect_sel
| Fget_endpoint_logs
| Fdownload_sel.

Inductive ext_call :=
| get_compute_physical_summary_list
| get_compute_server_setting_list (filter : string)
| update_compute_server_setting (moid collect_sel : string)
| get_equipment_end_point_log_list (filter : string)
| IntersightAuth
| requests_get (url : string)
| os_makedirs (path : string)
| open_w (path : string)
| file_write (path : string).

Inductive event :=
| EvPrint (line : string)
| EvCall (f : fn) (server : nat) (snapshot : record)
| EvExt (c : ext_call) (ok : bool)
| EvSleep (secs : nat).

Record world := {
  INTERSIGHT_URL : string;
  os_getcwd : string;
  w_summary_list : nat -> reply (list physical_summary);
  w_setting_list : nat -> string -> reply (list string);
  w_update_setting : nat -> string -> reply unit;
  w_end_point_log_list : nat -> string -> reply (list end_point_log);
  w_auth : nat -> reply unit;
  w_get : nat -> string -> reply (list byte);
  w_makedirs : nat -> string -> reply unit;
  w_open : nat -> string -> reply unit;
  w_write : nat -> string -> reply unit
}.

Record state := {
  heap : list record;
  trace : list event;
  dirs : gset string;
  files : gmap string text;
  clock : nat
}.

Definition initial (d : gset string) (f : gmap string text) : state :=
  {| heap := []; trace := []; dirs := d; files := f; clock := 0 |}.

(** ** The state-and-exception monad *)

Definition M (A : Type) : Type := state -> res A * state.

Definition ret {A} (a : A) : M A := fun s => (Ok a, s).

Definition raise {A} (e : exn) : M A := fun s => (Raise e, s).

Definition bind {A B} (m : M A) (k : A -> M B) : M B :=
  fun s =>
    match m s with
    | (Ok a, s') => k a s'
    | (Raise e, s') => (Raise e, s')
    end.

Notation "'do' x <- m ; k" := (bind m (fun x => k))
  (at level 10, x name, m at level 100, k at level 200,
   format "'[v' 'do'  x  <-  m ; '/' k ']'").
Notation "m >> k" := (bind m (fun _ => k))
  (at level 101, right associativity, format "'[v' m  >> '/' k ']'").

(** [try: body except Exception as e: handler e] *)
Definition try_except {A} (body : M A) (handler : exn -> M A) : M A :=
  fun s =>
    match body s with
    | (Ok a, s') => (Ok a, s')
    | (Raise e, s') => handler e s'
    end.

(** [for x in l: body x] *)
Fixpoint for_each {A} (l : list A) (body : A -> M unit) : M unit :=
  match l with
  | [] => ret tt
  | x :: l' => body x >> for_each l' body
  end.

(** [for x in o: body x] where [o] may be [None]. *)
Definition for_in {A} (o : option (list A)) (body : A -> M unit) : M unit :=
  match o with
  | Some l => for_each l body
  | None => raise (TypeError "'NoneType' object is not iterable")
  end.

Definition log (ev : event) : M unit :=
  fun s => (Ok tt, {| heap := heap s; trace := trace s ++ [ev];
                      dirs := dirs s; files := files s; clock := clock s |}).

Definition print (line : string) : M unit := log (EvPrint line).

Definition sleep (secs : nat) : M unit := log (EvSleep secs).

Definition tick : M nat :=
  fun s => (Ok (clock s), {| heap := heap s; trace := trace s;
                             dirs := dirs s; files := files s;
                             clock := S (clock s) |}).

(** An external call: ask the world at the current clock, record the call. *)
Definition external {A} (c : ext_call) (answer : nat -> reply A) : M A :=
  do n <- tick;
  match answer n with
  | Reply a => log (EvExt c true) >> ret a
  | Fault msg => log (EvExt c false) >> raise (ExternalError msg)
  end.

(** [str(e)] *)
Definition str_exn (e : exn) : string :=
  match e with
  | KeyError key => "'" +:+ key +:+ "'"
  | IndexError => "list index out of range"
  | TypeError msg => msg
  | UnicodeDecodeError => "'utf-8' codec can't decode bytes"
  | FileExistsError path => "[Errno 17] File exists: '" +:+ path +:+ "'"
  | ExternalError msg => msg
  end.

(** ** Dictionaries on the heap *)

Definition deref (server : nat) (s : state) : record :=
  default ∅ (heap s !! server).

(** [{...}]: a fresh dict. *)
Definition alloc (r : record) : M nat :=
  fun s => (Ok (length (heap s)),
            {| heap := heap s ++ [r]; trace := trace s;
               dirs := dirs s; files := files s; clock := clock s |}).

(** [server[key]] *)
Definition getitem (server : nat) (key : string) : M string :=
  fun s =>
    match deref server s !! key with
    | Some v => (Ok v, s)
    | None => (Raise (KeyError key), s)
    end.

(** [server[key] = v] *)
Definition setitem (server : nat) (key v : string) : M unit :=
  fun s => (Ok tt,
            {| heap := alter (insert key v) server (heap s); trace := trace s;
               dirs := dirs s; files := files s; clock := clock s |}).

(** [key in server] *)
Definition contains (server : nat) (key : string) : M bool :=
  fun s => (Ok (bool_decide (is_Some (deref server s !! key))), s).

(** [results[0]] *)
Definition first {A} (results : list A) : M A :=
  match results with
  | x :: _ => ret x
  | [] => raise IndexError
  end.

(** Ghost: function entry, with the dict as it is at that moment. *)
Definition enter (f : fn) (server : nat) : M unit :=
  fun s => log (EvCall f server (deref server s)) s.

(** ** Library functions the script calls *)

(** [b.startswith("/")] *)
Definition startswith_sep (b : string) : bool :=
  match b with
  | String "/"%char _ => true
  | _ => false
  end.

(** [a.endswith("/")] *)
Fixpoint endswith_sep (a : string) : bool :=
  match a with
  | EmptyString => false
  | String c EmptyString => bool_decide (c = "/"%char)
  | String _ a' => endswith_sep a'
  end.

(** [os.path.join(a, b)] of [posixpath]: an absolute [b] replaces [a]. *)
Definition os_path_join (a b : string) : string :=
  if startswith_sep b then b
  else if bool_decide (a = "") || endswith_sep a then a +:+ b
  else a +:+ "/" +:+ b.

(** [bytes.decode("utf-8")], strict: no overlong forms, no surrogates,
    nothing above U+10FFFF. *)
Section Utf8.
Local Open Scope N_scope.

Definition between (lo hi b : N) : bool := (lo <=? b) && (b <=? hi).

Definition continuation (b : N) : bool := between 128 191 b.

Definition low6 (b : N) : N := N.land b 63.

Fixpoint decode_utf8 (bs : list N) : option text :=
  match bs with
  | [] => Some []
  | b0 :: t0 =>
      if b0 <? 128 then cons b0 <$> decode_utf8 t0
      else if between 194 223 b0 then
        match t0 with
        | b1 :: t1 =>
            if continuation b1
            then cons (N.lor (N.shiftl (N.land b0 31) 6) (low6 b1))
                   <$> decode_utf8 t1
            else None
        | _ => None
        end
      else if between 224 239 b0 then
        match t0 with
        | b1 :: b2 :: t2 =>
            if between (if b0 =? 224 then 160 else 128)
                       (if b0 =? 237 then 159 else 191) b1
               && continuation b2
            then cons (N.lor (N.shiftl (N.land b0 15) 12)
                         (N.lor (N.shiftl (low6 b1) 6) (low6 b2)))
                   <$> decode_utf8 t2
            else None
        | _ => None
        end
      else if between 240 244 b0 then
        match t0 with
        | b1 :: b2 :: b3 :: t3 =>
            if between (if b0 =? 240 then 144 else 128)
                       (if b0 =? 244 then 143 else 191) b1
               && continuation b2 && continuation b3
            then cons (N.lor (N.shiftl (N.land b0 7) 18)
                         (N.lor (N.shiftl (low6 b1) 12)
                            (N.lor (N.shiftl (low6 b2) 6) (low6 b3))))
                   <$> decode_utf8 t3
            else None
        | _ => None
        end
      else None
  end.
End Utf8.

(** [response.content.decode("utf-8")] *)
Definition decode (content : list byte) : M text :=
  match decode_utf8 (Byte.to_N <$> content) with
  | Some t => ret t
  | None => raise UnicodeDecodeError
  end.

(** [os.path.exists(path)] *)
Definition path_exists (path : string) (s : state) : bool :=
  bool_decide (path ∈ dirs s) || bool_decide (is_Some (files s !! path)).

Definition os_path_exists (path : string) : M bool :=
  fun s => (Ok (path_exists path s), s).

Definition add_dir (path : string) : M unit :=
  fun s => (Ok tt, {| heap := heap s; trace := trace s;
                      dirs := {[path]} ∪ dirs s; files := files s;
                      clock := clock s |}).

Definition put_file (path : string) (f : option text -> text) : M unit :=
  fun s => (Ok tt, {| heap := heap s; trace := trace s; dirs := dirs s;
                      files := <[path := f (files s !! path)]> (files s);
                      clock := clock s |}).

Definition FOLDER_CREATED (folder_name : string) : string :=
  "Folder '" +:+ folder_name +:+ "' created.".

Definition FILE_CREATED (filename folder_name : string) : string :=
  "File '" +:+ filename +:+ "' created in folder '" +:+ folder_name +:+ "'.".

Definition WARNING : string :=
  "Warning: This script will only fech SEL files for servers managed by Intersight or in standalone mode.".

Definition WAITING : string := "Waiting for SEL to be generated...".

Definition FINISHED : string := "Finished downloading SEL files.".

(** ** The script *)

Section Script.
Variable w : world.

(** [os.makedirs(path)]: refuses a path that exists. *)
Definition makedirs (path : string) : M unit :=
  do ex <- os_path_exists path;
  if ex then raise (FileExistsError path)
  else external (os_makedirs path) (fun n => w_makedirs w n path) >>
       add_dir path.

(** [open(path, "w")]: creates the file or truncates it. *)
Definition open_write (path : string) : M unit :=
  external (open_w path) (fun n => w_open w n path) >>
  put_file path (fun _ => []).

(** [file.write(t)] *)
Definition write (path : string) (t : text) : M unit :=
  external (file_write path) (fun n => w_write w n path) >>
  put_file path (fun old => (default [] old ++ t)%list).

(** Lines 74-76. *)
Fixpoint get_server_list_loop (servers_list_from_api : list physical_summary)
    (servers_moid_list : list nat) : M (list nat) :=
  match servers_list_from_api with
  | [] => ret servers_moid_list
  | server :: rest =>
      if bool_decide (ps_management_mode server ∉ ["UCSM"])
      then do d <- alloc {[ "moid" := ps_moid server ]};
           get_server_list_loop rest (servers_moid_list ++ [d])
      else get_server_list_loop rest servers_moid_list
  end.

(** Lines 68-80.  The [except] branch has no [return]: the function then
    yields [None]. *)
Definition get_server_list : M (option (list nat)) :=
  try_except
    (do servers_list_from_api <-
        external get_compute_physical_summary_list (w_summary_list w);
     do servers_moid_list <- get_server_list_loop servers_list_from_api [];
     ret (Some servers_moid_list))
    (fun e => print (str_exn e) >> ret None).

(** Lines 84-97. *)
Definition get_server_settings (server : nat) : M unit :=
  enter Fget_server_settings server >>
  try_except
    (do server_moid <- getitem server "moid";
     let filter := "Parent.Moid eq '" +:+ server_moid +:+ "'" in
     do setting_results <-
        external (get_compute_server_setting_list filter)
                 (fun n => w_setting_list w n filter);
     do setting_result <- first setting_results;
     setitem server "setting_moid" setting_result)
    (fun e =>
       do m <- getitem server "moid";
       print ("Impossible to get server settings for " +:+ m +:+ " : "
              +:+ str_exn e)).

(** Lines 100-112.  The lookup of line 103 is before the [try]. *)
Definition set_collect_sel (server : nat) : M unit :=
  enter Fset_collect_sel server >>
  do setting_moid <- getitem server "setting_moid";
  try_except
    (external (update_compute_server_setting setting_moid "Collect")
              (fun n => w_update_setting w n setting_moid))
    (fun e =>
       do m <- getitem server "moid";
       print ("Impossible to set SEL collection for " +:+ m +:+ " : "
              +:+ str_exn e)).

(** Lines 115-130. *)
Definition get_endpoint_logs (server : nat) : M unit :=
  enter Fget_endpoint_logs server >>
  try_except
    (do server_moid <- getitem server "moid";
     let filter := "Server.Moid eq '" +:+ server_moid +:+ "'" in
     do endpoint_results <-
        external (get_equipment_end_point_log_list filter)
                 (fun n => w_end_point_log_list w n filter);
     do r0 <- first endpoint_results;
     let endpoint_moid := epl_moid r0 in
     do r0' <- first endpoint_results;
     let endpoint_filename := epl_file_name r0' in
     setitem server "endpoint_moid" endpoint_moid >>
     setitem server "endpoint_filename" endpoint_filename)
    (fun e =>
       do m <- getitem server "moid";
       print ("Impossible to get endpoint logs for " +:+ m +:+ ": "
              +:+ str_exn e)).

Definition folder_name : string := "SEL_logs".

Definition folder_path : string := os_path_join (os_getcwd w) folder_name.

(** Lines 181-183. *)
Definition ensure_folder : M unit :=
  do ex <- os_path_exists folder_path;
  if negb ex
  then makedirs folder_path >> print (FOLDER_CREATED folder_name)
  else ret tt.

(** Lines 185-187. *)
Definition save (file_path filename : string) (content : list byte)
    : M unit :=
  open_write file_path >>
  do t <- decode content;
  write file_path t >>
  print (FILE_CREATED filename folder_name).

(** Lines 172-173. *)
Definition request_url (endpoint_moid : string) : string :=
  let burl := "https://download." +:+ INTERSIGHT_URL w +:+ "/api/v1/" in
  burl +:+ "equipment/LogDownloads/" +:+ endpoint_moid.

(** Lines 164-191. *)
Definition download_sel (server : nat) : M unit :=
  enter Fdownload_sel server >>
  do endpoint_moid <- getitem server "endpoint_moid";
  do filename <- getitem server "endpoint_filename";
  external IntersightAuth (w_auth w) >>
  let request_url := request_url endpoint_moid in
  try_except
    (do response <-
        external (requests_get request_url) (fun n => w_get w n request_url);
     try_except
       (let file_path := os_path_join folder_path filename in
        ensure_folder >>
        save file_path filename response)
       (fun e => print ("Impossible to save SEL file: " +:+ str_exn e)))
    (fun e => print (str_exn e)).

(** Lines 201-207: the first loop of [main]. *)
Definition trigger_phase (servers_moid_list : option (list nat)) : M unit :=
  for_in servers_moid_list (fun server =>
    get_server_settings server >>
    set_collect_sel server >>
    get_endpoint_logs server).

(** Lines 211-214: the second loop of [main]. *)
Definition download_phase (servers_moid_list : option (list nat)) : M unit :=
  for_in servers_moid_list (fun server =>
    do present <- contains server "endpoint_moid";
    if present then download_sel server else ret tt).

(** Lines 194-215. *)
Definition main : M unit :=
  print WARNING >>
  do servers_moid_list <- get_server_list;
  trigger_phase servers_moid_list >>
  print WAITING >>
  sleep 5 >>
  download_phase servers_moid_list >>
  print FINISHED.

End Script.

(** A whole run, from a file system [d], [f]. *)
Definition run (w : world) (d : gset string) (f : gmap string text)
    : res unit * state :=
  main w (initial d f).

(** ** Classifying events *)

(** Events of the download phase (lines 164-191). *)
Definition is_download (ev : event) : bool :=
  match ev with
  | EvCall Fdownload_sel _ _ => true
  | EvExt IntersightAuth _ | EvExt (requests_get _) _
  | EvExt (os_makedirs _) _ | EvExt (open_w _) _
  | EvExt (file_write _) _ => true
  | _ => false
  end.

(** Events of the trigger phase (lines 84-130). *)
Definition is_trigger (ev : event) : bool :=
  match ev with
  | EvCall Fdownload_sel _ _ => false
  | EvCall _ _ _ => true
  | EvExt (get_compute_server_setting_list _) _
  | EvExt (update_compute_server_setting _ _) _
  | EvExt (get_equipment_end_point_log_list _) _ => true
  | _ => false
  end.

Definition is_sleep (ev : event) : bool :=
  match ev with
  | EvSleep _ => true
  | _ => false
  end.

(** The folder was really created. *)
Definition is_created (ev : event) : bool :=
  match ev with
  | EvExt (os_makedirs _) true => true
  | _ => false
  end.

Definition has_key (key : string) (r : record) : bool :=
  bool_decide (is_Some (r !! key)).

(** A dict has the log identifier exactly when it has the log filename. *)
Definition log_fields_together (r : record) : bool :=
  Bool.eqb (has_key "endpoint_moid" r) (has_key "endpoint_filename" r).

(** A dict handed to the downloader carries the log identifier. *)
Definition admitted (ev : event) : bool :=
  match ev with
  | EvCall Fdownload_sel _ r => has_key "endpoint_moid" r
  | _ => true
  end.



(** The three trigger-phase functions were entered for [server]. *)
Definition staged (server : nat) (tr : list event) : Prop :=
  (∃ r, EvCall Fget_server_settings server r ∈ tr) ∧
  (∃ r, EvCall Fset_collect_sel server r ∈ tr) ∧
  (∃ r, EvCall Fget_endpoint_logs server r ∈ tr).

(** ** Invariants of monadic code *)

(** [m] keeps [I], and whatever it raises satisfies [E]. *)
Definition inv {A} (I : state -> Prop) (E : exn -> Prop) (m : M A) : Prop :=
  ∀ s, I s → I (m s).2 ∧ ∀ e, (m s).1 = Raise e → E e.

(** The trace is [pre] followed by events that all satisfy [Φ]. *)
Definition tr_inv (pre : list event) (Φ : event -> bool) (s : state) : Prop :=
  ∃ post, trace s = pre ++ post ∧ Forall (fun ev => Φ ev = true) post.

(** The shape of the invariants used below: [P] for the heap, [Φ] for what
    is emitted after [pre]. *)
Definition run_inv (P : list record -> Prop) (pre : list event)
    (Φ : event -> bool) (s : state) : Prop :=
  P (heap s) ∧ tr_inv pre Φ s.

(** ** Statements about the inventory and the records *)

(** The dict the inventory builds for a server: its identifier only. *)
Definition record_of (sv : physical_summary) : record :=
  {[ "moid" := ps_moid sv ]}.

(** The servers that are not managed in the legacy mode. *)
Definition non_legacy (servers : list physical_summary)
    : list physical_summary :=
  filter (fun sv => ps_management_mode sv ≠ "UCSM") servers.

Definition with_heap (h : list record) (s : state) : state :=
  {| heap := h; trace := trace s; dirs := dirs s; files := files s;
     clock := clock s |}.

Definition heap_together (h : list record) : Prop :=
  Forall (fun r => log_fields_together r = true) h.



(** ** Concrete worlds *)

(** A world whose answers do not change with time. *)
Definition steady (cwd : string) (listing : reply (list physical_summary))
    (settings : string -> reply (list string))
    (logs : string -> reply (list end_point_log))
    (body : reply (list byte)) : world :=
  {| INTERSIGHT_URL := "intersight.com";
     os_getcwd := cwd;
     w_summary_list := fun _ => listing;
     w_setting_list := fun _ filter => settings filter;
     w_update_setting := fun _ _ => Reply tt;
     w_end_point_log_list := fun _ filter => logs filter;
     w_auth := fun _ => Reply tt;
     w_get := fun _ _ => body;
     w_makedirs := fun _ _ => Reply tt;
     w_open := fun _ _ => Reply tt;
     w_write := fun _ _ => Reply tt |}.

Definition server_A : physical_summary :=
  {| ps_moid := "A"; ps_management_mode := "IntersightStandalone" |}.

Definition server_B : physical_summary :=
  {| ps_moid := "B"; ps_management_mode := "Intersight" |}.

Definition server_U : physical_summary :=
  {| ps_moid := "U"; ps_management_mode := "UCSM" |}.

Definition one_setting (filter : string) : reply (list string) :=
  Reply ["setting-1"].

Definition one_log (filter : string) : reply (list end_point_log) :=
  Reply [ {| epl_moid := "X"; epl_file_name := "sel.txt" |} ].

(** The bytes of "hi". *)
Definition body_hi : list byte := [x68; x69].

(** One legacy-managed server and one that is not; every call succeeds. *)
Definition world_mixed : world :=
  steady "/home/user" (Reply [server_U; server_B]) one_setting one_log
         (Reply body_hi).

(** Two servers; the log listing of A is empty, so A's dict never gets a
    log identifier. *)
Definition logs_but_A (filter : string) : reply (list end_point_log) :=
  if bool_decide (filter = "Server.Moid eq 'A'") then Reply []
  else one_log filter.

Definition world_A_without_log : world :=
  steady "/home/user" (Reply [server_A; server_B]) one_setting logs_but_A
         (Reply body_hi).

(** The servers the downloader was called for, in order. *)
Definition downloaded (tr : list event) : list nat :=
  omap (fun ev => match ev with
                  | EvCall Fdownload_sel server _ => Some server
                  | _ => None
                  end) tr.

(** What may be emitted before the delay: no download event, no sleep. *)
Definition before_delay (ev : event) : bool :=
  negb (is_download ev) && negb (is_sleep ev).

(** What may be emitted after the delay: no trigger event, no sleep. *)
Definition after_delay (ev : event) : bool :=
  negb (is_trigger ev) && negb (is_sleep ev).

(** How many times the output folder was really created. *)
Definition created (tr : list event) : nat :=
  length (filter (fun ev => is_created ev = true) tr).

(** At most one creation so far, and once created the folder is there. *)
Definition folder_inv (w : world) (s : state) : Prop :=
  (created (trace s) ≤ 1)%nat ∧
  (created (trace s) = 1 → path_exists (folder_path w) s = true).

Definition is_file_exists_error (r : res unit) : bool :=
  match r with
  | Raise (FileExistsError _) => true
  | _ => false
  end.

(** Three servers, every call succeeds: three downloads in one run. *)
Definition world_three : world :=
  steady "/home/user" (Reply [server_A; server_B; server_U; server_A])
         one_setting one_log (Reply body_hi).

(** The state after an external call has been recorded. *)
Definition after_call (c : ext_call) (ok : bool) (s : state) : state :=
  {| heap := heap s; trace := trace s ++ [EvExt c ok]; dirs := dirs s;
     files := files s; clock := S (clock s) |}.

(** ** The downloader's contract, as the specification words it *)

(** The components of a path: the pieces between the "/". *)
Fixpoint split_path (p : string) : list string :=
  match p with
  | EmptyString => [EmptyString]
  | String c p' =>
      if bool_decide (c = "/"%char) then EmptyString :: split_path p'
      else match split_path p' with
           | x :: xs => String c x :: xs
           | [] => [String c EmptyString]
           end
  end.

(** One component, read while walking down a path: "" and "." stay in
    place, ".." goes up, a name goes down. *)
Definition walk (stack : list string) (c : string) : list string :=
  if bool_decide (c = "") || bool_decide (c = ".") then stack
  else if bool_decide (c = "..") then removelast stack
  else stack ++ [c].

(** Where a path leads, from the root: the names left once "." and ".."
    are resolved. *)
Definition resolve_path (p : string) : list string :=
  fold_left walk (split_path p) [].

(** [path] lies inside [folder]: it leads strictly below where [folder]
    leads. *)
Definition inside_folder (folder path : string) : bool :=
  Nat.ltb (length (resolve_path folder)) (length (resolve_path path))
  && bool_decide (take (length (resolve_path folder)) (resolve_path path)
                  = resolve_path folder).

(** No "/" in the name. *)
Fixpoint no_sep (name : string) : bool :=
  match name with
  | EmptyString => true
  | String c name' => negb (bool_decide (c = "/"%char)) && no_sep name'
  end.

(** A plain file name: one component that names something. *)
Definition plain_name (name : string) : bool :=
  no_sep name
  && negb (bool_decide (name = "") || bool_decide (name = ".")
           || bool_decide (name = "..")).

(** For a dict with log identifier [X] and filename [F]: when the download
    succeeds with a body that decodes to [t] and the folder step, the opening
    and the writing succeed, the downloader returns, the file named [F] in
    the output folder holds [t], and that file lies inside the output
    folder. *)
Definition download_claim (w : world) (s : state) (server : nat)
    (X F : string) (body : list byte) (t : text) : Prop :=
  deref server s !! "endpoint_moid" = Some X →
  deref server s !! "endpoint_filename" = Some F →
  (∀ n, w_auth w n = Reply tt) →
  (∀ n, w_get w n (request_url w X) = Reply body) →
  decode_utf8 (Byte.to_N <$> body) = Some t →
  (∀ n, w_makedirs w n (folder_path w) = Reply tt) →
  (∀ n, w_open w n (os_path_join (folder_path w) F) = Reply tt) →
  (∀ n, w_write w n (os_path_join (folder_path w) F) = Reply tt) →
  (download_sel w server s).1 = Ok tt ∧
  files (download_sel w server s).2 !! (folder_path w +:+ "/" +:+ F) = Some t ∧
  inside_folder (folder_path w) (folder_path w +:+ "/" +:+ F) = true.

(** A heap with the single, fully resolved dict of a server. *)
Definition resolved (X F : string) : state :=
  with_heap [ <[ "endpoint_filename" := F ]>
                (<[ "endpoint_moid" := X ]>
                   (<[ "setting_moid" := "setting-1" ]> {[ "moid" := "A" ]})) ]
            (initial ∅ ∅).

(** The text "hi". *)
Definition text_hi : text := [104%N; 105%N].

(** A body that is not UTF-8. *)
Definition body_bad : list byte := [x68; xff].

Definition world_bad_body : world :=
  steady "/home/user" (Reply [server_A]) one_setting one_log (Reply body_bad).

(** ** Failure scenarios *)

(** The settings query fails for A and succeeds for every other server. *)
Definition settings_but_A (filter : string) : reply (list string) :=
  if bool_decide (filter = "Parent.Moid eq 'A'")
  then Fault "settings query failed"
  else one_setting filter.

(** Two servers, A first; settings resolution fails for A only. *)
Definition world_A_settings_fail : world :=
  steady "/home/user" (Reply [server_A; server_B]) settings_but_A one_log
         (Reply body_hi).

(** The same with B first. *)
Definition world_B_then_A : world :=
  steady "/home/user" (Reply [server_B; server_A]) settings_but_A one_log
         (Reply body_hi).

(** The server-listing call fails. *)
Definition world_listing_fails : world :=
  steady "/home/user" (Fault "listing failed") one_setting one_log
         (Reply body_hi).

(** The lines printed, in order. *)
Definition console (tr : list event) : list string :=
  omap (fun ev => match ev with
                  | EvPrint line => Some line
                  | _ => None
                  end) tr.

(** The functions entered for [server], in order. *)
Definition entered_for (server : nat) (tr : list event) : list fn :=
  omap (fun ev => match ev with
                  | EvCall f server' _ =>
                      if bool_decide (server' = server) then Some f else None
                  | _ => None
                  end) tr.

(** ** States and worlds for the stage functions *)

(** A heap with the single dict the inventory builds for server [m]. *)
Definition listed (m : string) : state :=
  with_heap [ {[ "moid" := m ]} ] (initial ∅ ∅).

(** The same dict after settings resolution. *)
Definition settled (m sm : string) : state :=
  with_heap [ <[ "setting_moid" := sm ]> {[ "moid" := m ]} ] (initial ∅ ∅).

(** The filters of lines 89 and 120. *)
Definition settings_filter (server_moid : string) : string :=
  "Parent.Moid eq '" +:+ server_moid +:+ "'".

Definition logs_filter (server_moid : string) : string :=
  "Server.Moid eq '" +:+ server_moid +:+ "'".

(** Two settings objects and two logs under each server. *)
Definition two_settings (filter : string) : reply (list string) :=
  Reply ["setting-1"; "setting-2"].

Definition two_logs (filter : string) : reply (list end_point_log) :=
  Reply [ {| epl_moid := "X"; epl_file_name := "sel.txt" |};
          {| epl_moid := "Y"; epl_file_name := "other.txt" |} ].

Definition world_two_results : world :=
  steady "/home/user" (Reply [server_B]) two_settings two_logs (Reply body_hi).

(** Every query answers with an empty result list. *)
Definition no_setting (filter : string) : reply (list string) := Reply [].

Definition no_log (filter : string) : reply (list end_point_log) := Reply [].

Definition world_no_results : world :=
  steady "/home/user" (Reply [server_B]) no_setting no_log (Reply body_hi).

(** The update call is refused. *)
Definition world_update_refused : world :=
  {| INTERSIGHT_URL := "intersight.com";
     os_getcwd := "/home/user";
     w_summary_list := fun _ => Reply [server_B];
     w_setting_list := fun _ filter => one_setting filter;
     w_update_setting := fun _ _ => Fault "update refused";
     w_end_point_log_list := fun _ filter => one_log filter;
     w_auth := fun _ => Reply tt;
     w_get := fun _ _ => Reply body_hi;
     w_makedirs := fun _ _ => Reply tt;
     w_open := fun _ _ => Reply tt;
     w_write := fun _ _ => Reply tt |}.

(** Lines 97, 112 and 130: what a stage prints when its call fails. *)
Definition settings_failure_line (m reason : string) : string :=
  "Impossible to get server settings for " +:+ m +:+ " : " +:+ reason.

Definition trigger_failure_line (m reason : string) : string :=
  "Impossible to set SEL collection for " +:+ m +:+ " : " +:+ reason.

Definition logs_failure_line (m reason : string) : string :=
  "Impossible to get endpoint logs for " +:+ m +:+ ": " +:+ reason.

(** The external calls made, in order. *)
Definition calls (tr : list event) : list ext_call :=
  omap (fun ev => match ev with
                  | EvExt c _ => Some c
                  | _ => None
                  end) tr.

(** A world given by what the download host and the file system answer. *)
Definition fs_world (body : reply (list byte)) (mk op wr : reply unit)
    : world :=
  {| INTERSIGHT_URL := "intersight.com";
     os_getcwd := "/home/user";
     w_summary_list := fun _ => Reply [server_B];
     w_setting_list := fun _ filter => one_setting filter;
     w_update_setting := fun _ _ => Reply tt;
     w_end_point_log_list := fun _ filter => one_log filter;
     w_auth := fun _ => Reply tt;
     w_get := fun _ _ => body;
     w_makedirs := fun _ _ => mk;
     w_open := fun _ _ => op;
     w_write := fun _ _ => wr |}.

(** The download host refuses the request. *)
Definition world_get_fails : world :=
  fs_world (Fault "404 Not Found") (Reply tt) (Reply tt) (Reply tt).

(** The output folder cannot be created. *)
Definition world_makedirs_fails : world :=
  fs_world (Reply body_hi) (Fault "Permission denied") (Reply tt) (Reply tt).

(** The file cannot be opened. *)
Definition world_open_fails : world :=
  fs_world (Reply body_hi) (Reply tt) (Fault "Permission denied") (Reply tt).

(** The state in which the downloader asks for the log: entered, signer
    built. *)
Definition before_get (server : nat) (s : state) : state :=
  after_call IntersightAuth true
    (log (EvCall Fdownload_sel server (deref server s)) s).2.

(** The state in which the downloader saves: the body has arrived. *)
Definition before_save (w : world) (server : nat) (X : string) (s : state)
    : state :=
  after_call (requests_get (request_url w X)) true (before_get server s).

(** Line 189: what is printed when the file cannot be saved. *)
Definition save_failure_line (reason : string) : string :=
  "Impossible to save SEL file: " +:+ reason.

(** ** Whole runs *)

(** Lines 201-215: what [main] does once it has the inventory. *)
Definition phases (w : world) (servers_moid_list : option (list nat))
    : M unit :=
  trigger_phase w servers_moid_list >>
  print WAITING >>
  sleep 5 >>
  download_phase w servers_moid_list >>
  print FINISHED.

(** The server identifiers held by the dicts of the heap, in order. *)
Definition moids (h : list record) : list (option string) :=
  (fun r => r !! "moid") <$> h.

(** The dicts are those of the servers [ms], and keep their log fields
    together. *)
Definition inventory_inv (ms : list string) (h : list record) : Prop :=
  moids h = Some <$> ms ∧ heap_together h.

(** How a run has ended: it returned; or it raised [TypeError] on the
    missing inventory, the listing having failed; or it raised [KeyError] on
    "setting_moid" right at the entry of the trigger, for a dict without that
    key; or it raised what the construction of the request signer raised, that
    construction being the last call made. *)
Definition run_ended (w : world) (r : res unit * state) : Prop :=
  r.1 = Ok tt
  ∨ (r.1 = Raise (TypeError "'NoneType' object is not iterable") ∧
     ∃ msg, w_summary_list w 0 = Fault msg)
  ∨ (r.1 = Raise (KeyError "setting_moid") ∧
     ∃ server snapshot,
       last (trace r.2) = Some (EvCall Fset_collect_sel server snapshot) ∧
       snapshot !! "setting_moid" = None)
  ∨ (∃ msg n,
       r.1 = Raise (ExternalError msg) ∧
       last (trace r.2) = Some (EvExt IntersightAuth false) ∧
       clock r.2 = S n ∧ w_auth w n = Fault msg).

(** [m] keeps [I], and whatever it raises satisfies [E] in the state it
    raises in. *)
Definition inv_at {A} (I : state -> Prop) (E : exn -> state -> Prop)
    (m : M A) : Prop :=
  ∀ s, I s → I (m s).2 ∧ ∀ e, (m s).1 = Raise e → E e (m s).2.

(** The signer cannot be built. *)
Definition world_auth_fails : world :=
  {| INTERSIGHT_URL := "intersight.com";
     os_getcwd := "/home/user";
     w_summary_list := fun _ => Reply [server_B];
     w_setting_list := fun _ filter => one_setting filter;
     w_update_setting := fun _ _ => Reply tt;
     w_end_point_log_list := fun _ filter => one_log filter;
     w_auth := fun _ => Fault "key file not found";
     w_get := fun _ _ => Reply body_hi;
     w_makedirs := fun _ _ => Reply tt;
     w_open := fun _ _ => Reply tt;
     w_write := fun _ _ => Reply tt |}.

(** ** The log resolver, statement by statement *)

(** Lines 115-127: the log resolver up to the first of its two
    assignments. *)
Definition get_endpoint_logs_to_line_127 (w : world) (server : nat)
    : M unit :=
  enter Fget_endpoint_logs server >>
  (do server_moid <- getitem server "moid";
   let filter := "Server.Moid eq '" +:+ server_moid +:+ "'" in
   do endpoint_results <-
      external (get_equipment_end_point_log_list filter)
               (fun n => w_end_point_log_list w n filter);
   do r0 <- first endpoint_results;
   let endpoint_moid := epl_moid r0 in
   do r0' <- first endpoint_results;
   setitem server "endpoint_moid" endpoint_moid).


(** Every server is managed in the legacy mode. *)
Definition world_legacy_only : world :=
  steady "/home/user" (Reply [server_U; server_U]) one_setting one_log
         (Reply body_hi).

(** The platform answers the listing and the settings queries; everything
    else fails. *)
Definition world_rest_fails : world :=
  {| INTERSIGHT_URL := "intersight.com";
     os_getcwd := "/home/user";
     w_summary_list := fun _ => Reply [server_A; server_U; server_B];
     w_setting_list := fun _ filter => one_setting filter;
     w_update_setting := fun _ _ => Fault "update refused";
     w_end_point_log_list := fun n filter =>
       if bool_decide (filter = logs_filter "A") then Fault "no logs"
       else one_log filter;
     w_auth := fun _ => Reply tt;
     w_get := fun _ _ => Fault "404 Not Found";
     w_makedirs := fun _ _ => Fault "Permission denied";
     w_open := fun _ _ => Fault "Permission denied";
     w_write := fun _ _ => Fault "No space left on device" |}.

(** Anything but the entry of the downloader. *)
Definition not_download_call (ev : event) : bool :=
  match ev with
  | EvCall Fdownload_sel _ _ => false
  | _ => true
  end.

(** * Properties *)

(** ** The decoder on known inputs *)

(** "é", "€" and U+1F600 decode; an overlong form, a surrogate, a lone
    continuation byte and a truncated sequence do not. *)
Example decode_utf8_accepts :
  decode_utf8 [195; 169; 226; 130; 172; 240; 159; 152; 128]%N
  = Some [233; 8364; 128512]%N.
Proof. reflexivity. Qed.

Example decode_utf8_rejects :
  decode_utf8 [192; 128]%N = None ∧
  decode_utf8 [237; 160; 128]%N = None ∧
  decode_utf8 [128]%N = None ∧
  decode_utf8 [226; 130]%N = None ∧
  decode_utf8 [244; 144; 128; 128]%N = None.
Proof. repeat split; reflexivity. Qed.

Example os_path_join_cases :
  os_path_join "/home/user" "SEL_logs" = "/home/user/SEL_logs" ∧
  os_path_join "/" "SEL_logs" = "/SEL_logs" ∧
  os_path_join "" "SEL_logs" = "SEL_logs" ∧
  os_path_join "/home/user/SEL_logs" "/tmp/sel.txt" = "/tmp/sel.txt".
Proof. repeat split; reflexivity. Qed.


Section InvRules.
Context (I : state -> Prop) (E : exn -> Prop).

Lemma inv_ret {A} (a : A) : inv I E (ret a).
Proof. intros s Hs; split; [exact Hs | discriminate]. Qed.

Lemma inv_raise {A} (e : exn) : E e → inv I E (@raise A e).
Proof. intros He s Hs; split; [exact Hs | intros e' [= <-]; exact He]. Qed.

Lemma inv_bind {A B} (m : M A) (k : A -> M B) :
  inv I E m → (∀ a, inv I E (k a)) → inv I E (bind m k).
Proof.
  intros Hm Hk s Hs. unfold bind.
  destruct (Hm s Hs) as [H1 H2]. destruct (m s) as [[a|e] s1]; simpl in *.
  - apply Hk, H1.
  - split; [exact H1 | intros e' [= <-]; apply H2; reflexivity].
Qed.

(** The body may raise anything: the handler takes it all. *)
Lemma inv_try_except {A} (E0 : exn -> Prop) (body : M A) (h : exn -> M A) :
  inv I E0 body → (∀ e, inv I E (h e)) → inv I E (try_except body h).
Proof.
  intros Hb Hh s Hs. unfold try_except.
  destruct (Hb s Hs) as [H1 _]. destruct (body s) as [[a|e] s1]; simpl in *.
  - split; [exact H1 | discriminate].
  - apply Hh, H1.
Qed.

Lemma inv_for_each {A} (l : list A) (body : A -> M unit) :
  (∀ x, x ∈ l → inv I E (body x)) → inv I E (for_each l body).
Proof.
  induction l as [|x l IH]; intros Hb; simpl.
  - apply inv_ret.
  - apply inv_bind; [apply Hb; left | intros _; apply IH].
    intros y Hy; apply Hb; right; exact Hy.
Qed.

Lemma inv_first {A} (l : list A) : E IndexError → inv I E (first l).
Proof. intros He; destruct l; [apply inv_raise, He | apply inv_ret]. Qed.

(** Reading never changes the state. *)
Lemma inv_getitem server key : E (KeyError key) → inv I E (getitem server key).
Proof.
  intros He s Hs. unfold getitem. destruct (deref server s !! key); simpl.
  - split; [exact Hs | discriminate].
  - split; [exact Hs | intros e [= <-]; exact He].
Qed.

Lemma inv_contains server key : inv I E (contains server key).
Proof. intros s Hs; split; [exact Hs | discriminate]. Qed.

Lemma inv_os_path_exists path : inv I E (os_path_exists path).
Proof. intros s Hs; split; [exact Hs | discriminate]. Qed.

Lemma inv_decode content : E UnicodeDecodeError → inv I E (decode content).
Proof.
  intros He. unfold decode.
  destruct (decode_utf8 _); [apply inv_ret | apply inv_raise, He].
Qed.

(** A step that cannot raise and keeps [I]. *)
Lemma inv_total {A} (m : M A) :
  (∀ s, I s → I (m s).2) → (∀ s, ∃ a, (m s).1 = Ok a) → inv I E m.
Proof.
  intros HI Hok s Hs; split; [apply HI, Hs|].
  intros e He. destruct (Hok s) as [a Ha]. congruence.
Qed.

Lemma inv_external {A} (c : ext_call) (answer : nat -> reply A) :
  (∀ s, I s → I (tick s).2) →
  (∀ ok s, I s → I (log (EvExt c ok) s).2) →
  (∀ msg, E (ExternalError msg)) →
  inv I E (external c answer).
Proof.
  intros Ht Hl He. unfold external.
  apply inv_bind; [apply inv_total; [exact Ht | eexists; reflexivity]|].
  intros n. destruct (answer n).
  - apply inv_bind; [|intros _; apply inv_ret].
    apply inv_total; [apply Hl | eexists; reflexivity].
  - apply inv_bind; [|intros _; apply inv_raise, He].
    apply inv_total; [apply Hl | eexists; reflexivity].
Qed.
End InvRules.

(** Weakening of the invariant's exception part. *)
Lemma inv_weaken {A} (I : state -> Prop) (E E' : exn -> Prop) (m : M A) :
  (∀ e, E e → E' e) → inv I E m → inv I E' m.
Proof.
  intros HE Hm s Hs. destruct (Hm s Hs) as [H1 H2].
  split; [exact H1 | intros e He; apply HE, H2, He].
Qed.

(** Takes monadic code apart along its combinators; what is left are the
    primitive steps, as goals [∀ s, I s → I (step s).2]. *)
Ltac inv_leaf :=
  apply inv_total; [| intros ?; eexists; reflexivity].

Ltac inv_struct :=
  repeat first
    [ lazymatch goal with
      | |- inv _ _ (bind (setitem _ _ _) (fun _ => setitem _ _ _)) => fail
      | |- inv _ _ (ret _) => apply inv_ret
      | |- inv _ _ (raise _) => apply inv_raise
      | |- inv _ _ (bind _ _) => apply inv_bind; [| intros ?]
      | |- inv _ _ (try_except _ _) =>
          apply inv_try_except with (E0 := fun _ => True); [| intros ?]
      | |- inv _ _ (for_each _ _) => apply inv_for_each; intros ? ?
      | |- inv _ _ (first _) => apply inv_first
      | |- inv _ _ (getitem _ _) => apply inv_getitem
      | |- inv _ _ (contains _ _) => apply inv_contains
      | |- inv _ _ (os_path_exists _) => apply inv_os_path_exists
      | |- inv _ _ (decode _) => apply inv_decode
      | |- inv _ _ (external _ _) => apply inv_external
      | |- inv _ _ (if ?b then _ else _) => destruct b
      | |- inv _ _ (print _) => inv_leaf
      | |- inv _ _ (sleep _) => inv_leaf
      | |- inv _ _ (log _) => inv_leaf
      | |- inv _ _ (enter _ _) => inv_leaf
      | |- inv _ _ (setitem _ _ _) => inv_leaf
      | |- inv _ _ (alloc _) => inv_leaf
      | |- inv _ _ (add_dir _) => inv_leaf
      | |- inv _ _ (put_file _ _) => inv_leaf
      end
    | exact Logic.I
    | intros _; exact Logic.I ].

(** *** Invariants over the heap and the emitted events *)

Lemma tr_inv_log pre Φ ev s :
  Φ ev = true → tr_inv pre Φ s → tr_inv pre Φ (log ev s).2.
Proof.
  intros Hev (post & Htr & Hpost). exists (post ++ [ev]); simpl; split.
  - rewrite Htr, app_assoc; reflexivity.
  - apply Forall_app; split; [exact Hpost | repeat constructor; exact Hev].
Qed.

Lemma tr_inv_same pre Φ s s' :
  trace s' = trace s → tr_inv pre Φ s → tr_inv pre Φ s'.
Proof. unfold tr_inv; intros ->; auto. Qed.

Lemma tr_inv_start Φ s : tr_inv (trace s) Φ s.
Proof. exists []; split; [symmetry; apply app_nil_r | constructor]. Qed.

Lemma bind_enter {B} f server (k : unit -> M B) s :
  bind (enter f server) k s = k tt (log (EvCall f server (deref server s)) s).2.
Proof. reflexivity. Qed.

Lemma bind_getitem_Some {B} server key v (k : string -> M B) s :
  deref server s !! key = Some v → bind (getitem server key) k s = k v s.
Proof. intros H. unfold bind, getitem. rewrite H. reflexivity. Qed.

Lemma bind_getitem_None {B} server key (k : string -> M B) s :
  deref server s !! key = None →
  bind (getitem server key) k s = (Raise (KeyError key), s).
Proof. intros H. unfold bind, getitem. rewrite H. reflexivity. Qed.

Lemma bind_contains {B} server key (k : bool -> M B) s :
  bind (contains server key) k s = k (has_key key (deref server s)) s.
Proof. reflexivity. Qed.

Section RunInvariants.
Variable w : world.
Variable P : list record -> Prop.
Variable pre : list event.
Variable Φ : event -> bool.
Variable E : exn -> Prop.

Hypothesis P_alloc : ∀ h m, P h → P (h ++ [{[ "moid" := m ]}]).
Hypothesis P_settings :
  ∀ h server v, P h → P (alter (insert "setting_moid" v) server h).
Hypothesis P_logs :
  ∀ h server v1 v2, P h →
    P (alter (insert "endpoint_filename" v2) server
         (alter (insert "endpoint_moid" v1) server h)).
Hypothesis Φ_print : ∀ line, Φ (EvPrint line) = true.
Hypothesis Φ_sleep : ∀ n, Φ (EvSleep n) = true.
Hypothesis Φ_list :
  ∀ ok, Φ (EvExt get_compute_physical_summary_list ok) = true.
Hypothesis Φ_trigger_ext :
  ∀ c ok, is_trigger (EvExt c ok) = true → Φ (EvExt c ok) = true.
Hypothesis Φ_trigger_call :
  ∀ f server h, P h → is_trigger (EvCall f server ∅) = true →
    Φ (EvCall f server (default ∅ (h !! server))) = true.
Hypothesis Φ_download_ext :
  ∀ c ok, is_download (EvExt c ok) = true → Φ (EvExt c ok) = true.
Hypothesis Φ_download_call :
  ∀ server h, P h →
    has_key "endpoint_moid" (default ∅ (h !! server)) = true →
    Φ (EvCall Fdownload_sel server (default ∅ (h !! server))) = true.
Hypothesis E_other : ∀ e, e ≠ KeyError "endpoint_filename" → E e.
Hypothesis E_named :
  ∀ server h, P h →
    has_key "endpoint_moid" (default ∅ (h !! server)) = true →
    has_key "endpoint_filename" (default ∅ (h !! server)) = true
    ∨ E (KeyError "endpoint_filename").

Let I := run_inv P pre Φ.

Ltac heap_leaf HP :=
  simpl;
  first [ exact HP | apply P_alloc, HP | apply P_settings, HP
        | apply P_logs, HP ].

Ltac trace_leaf HP HT :=
  first
    [ apply tr_inv_log; [apply Φ_print | exact HT]
    | apply tr_inv_log; [apply Φ_sleep | exact HT]
    | apply tr_inv_log; [apply Φ_list | exact HT]
    | apply tr_inv_log; [apply Φ_trigger_ext; reflexivity | exact HT]
    | apply tr_inv_log; [apply Φ_download_ext; reflexivity | exact HT]
    | apply tr_inv_log;
        [apply Φ_trigger_call; [exact HP | reflexivity] | exact HT]
    | eapply tr_inv_same; [| exact HT]; reflexivity ].

Ltac leaf :=
  first
    [ apply E_other; discriminate
    | intros; apply E_other; discriminate
    | let HP := fresh "HP" in
      let HT := fresh "HT" in
      intros; match goal with H : I _ |- _ => destruct H as [HP HT] end;
      split; [heap_leaf HP | trace_leaf HP HT] ].

Lemma run_inv_get_server_list_loop servers acc :
  inv I E (get_server_list_loop servers acc).
Proof.
  revert acc; induction servers as [|sv servers IH]; intros acc; simpl.
  - apply inv_ret.
  - destruct (bool_decide _); [| apply IH].
    apply inv_bind; [| intros d; apply IH].
    inv_leaf. leaf.
Qed.

Lemma run_inv_get_server_list : inv I E (get_server_list w).
Proof.
  unfold get_server_list. inv_struct;
    try apply (inv_weaken _ E); try apply run_inv_get_server_list_loop;
    try (intros; exact Logic.I); leaf.
Qed.

Lemma run_inv_get_server_settings server :
  inv I E (get_server_settings w server).
Proof. unfold get_server_settings. inv_struct; leaf. Qed.

Lemma run_inv_set_collect_sel server : inv I E (set_collect_sel w server).
Proof. unfold set_collect_sel. inv_struct; leaf. Qed.

Lemma run_inv_get_endpoint_logs server :
  inv I E (get_endpoint_logs w server).
Proof. unfold get_endpoint_logs. inv_struct; try inv_leaf; leaf. Qed.

Lemma run_inv_trigger_phase l : inv I E (trigger_phase w l).
Proof.
  unfold trigger_phase, for_in.
  destruct l as [l|]; [| apply inv_raise, E_other; discriminate].
  apply inv_for_each; intros server _.
  apply inv_bind; [apply run_inv_get_server_settings | intros _].
  apply inv_bind; [apply run_inv_set_collect_sel | intros _].
  apply run_inv_get_endpoint_logs.
Qed.

Lemma run_inv_ensure_folder : inv I (fun _ => True) (ensure_folder w).
Proof.
  unfold ensure_folder, makedirs.
  inv_struct; let HP := fresh in let HT := fresh in
    intros; match goal with H : I _ |- _ => destruct H as [HP HT] end;
    split; [heap_leaf HP | trace_leaf HP HT].
Qed.

Lemma run_inv_save file_path filename content :
  inv I (fun _ => True) (save w file_path filename content).
Proof.
  unfold save, open_write, write.
  inv_struct; let HP := fresh in let HT := fresh in
    intros; match goal with H : I _ |- _ => destruct H as [HP HT] end;
    split; [heap_leaf HP | trace_leaf HP HT].
Qed.

(** The downloader, for a dict that has the log identifier. *)
Lemma run_inv_download_sel server s :
  has_key "endpoint_moid" (deref server s) = true →
  I s →
  I (download_sel w server s).2 ∧
  ∀ e, (download_sel w server s).1 = Raise e → E e.
Proof.
  intros Hkey [HP HT]. unfold download_sel. rewrite bind_enter.
  set (s1 := (log (EvCall Fdownload_sel server (deref server s)) s).2).
  assert (I s1) as Hs1.
  { split; [exact HP |]. apply tr_inv_log; [| exact HT].
    apply Φ_download_call; [exact HP | exact Hkey]. }
  assert (deref server s1 = deref server s) as Hderef by reflexivity.
  unfold has_key in Hkey. apply bool_decide_eq_true in Hkey.
  destruct Hkey as [endpoint_moid Hm].
  rewrite (bind_getitem_Some server "endpoint_moid" endpoint_moid)
    by (rewrite Hderef; exact Hm).
  destruct (deref server s !! "endpoint_filename") as [filename|] eqn:Hf.
  - rewrite (bind_getitem_Some server "endpoint_filename" filename)
      by (rewrite Hderef; exact Hf).
    match goal with
    | |- I (?m ?s0).2 ∧ _ => assert (inv I E m) as Hinv
    end.
    { inv_struct;
        try apply run_inv_ensure_folder; try apply run_inv_save; leaf. }
    apply Hinv, Hs1.
  - rewrite (bind_getitem_None server "endpoint_filename")
      by (rewrite Hderef; exact Hf).
    simpl; split; [exact Hs1 |]. intros e [= <-].
    destruct (E_named server (heap s) HP) as [Hn | He]; [| | exact He].
    + unfold has_key; apply bool_decide_eq_true.
      eexists; exact Hm.
    + unfold has_key in Hn; apply bool_decide_eq_true in Hn.
      unfold deref in Hf. rewrite Hf in Hn. destruct Hn; discriminate.
Qed.

Lemma run_inv_download_phase l : inv I E (download_phase w l).
Proof.
  unfold download_phase, for_in.
  destruct l as [l|]; [| apply inv_raise, E_other; discriminate].
  apply inv_for_each; intros server _ s Hs.
  rewrite bind_contains.
  destruct (has_key _ _) eqn:Hk.
  - apply run_inv_download_sel; [exact Hk | exact Hs].
  - split; [exact Hs | discriminate].
Qed.

Lemma run_inv_main : inv I E (main w).
Proof.
  unfold main. inv_struct;
    try apply run_inv_get_server_list; try apply run_inv_trigger_phase;
    try apply run_inv_download_phase; leaf.
Qed.
End RunInvariants.

(** *** The inventory, exactly *)

Lemma non_legacy_cons sv servers :
  non_legacy (sv :: servers) =
  if bool_decide (ps_management_mode sv ∉ ["UCSM"])
  then sv :: non_legacy servers else non_legacy servers.
Proof.
  unfold non_legacy. rewrite filter_cons.
  destruct (decide (ps_management_mode sv ≠ "UCSM")) as [Hne|Heq].
  - rewrite bool_decide_eq_true_2; [reflexivity |].
    intros Hin. apply list_elem_of_singleton in Hin. contradiction.
  - rewrite bool_decide_eq_false_2; [reflexivity |].
    intros Hnin. apply Heq. intros Hm. apply Hnin. rewrite Hm. left.
Qed.

Lemma get_server_list_loop_eq servers acc s :
  get_server_list_loop servers acc s =
  (Ok (acc ++ seq (length (heap s)) (length (non_legacy servers))),
   with_heap (heap s ++ (record_of <$> non_legacy servers)) s).
Proof.
  revert acc s; induction servers as [|sv servers IH]; intros acc s.
  - simpl. unfold ret, with_heap. rewrite !app_nil_r. destruct s; reflexivity.
  - rewrite non_legacy_cons. simpl.
    destruct (bool_decide _).
    + unfold bind, alloc. rewrite IH. simpl. unfold with_heap; simpl.
      rewrite length_app, <- !app_assoc. simpl.
      replace (length (heap s) + 1) with (S (length (heap s))) by lia.
      reflexivity.
    + apply IH.
Qed.

Lemma get_server_list_Reply w s servers :
  w_summary_list w (clock s) = Reply servers →
  get_server_list w s =
  (Ok (Some (seq (length (heap s)) (length (non_legacy servers)))),
   {| heap := heap s ++ (record_of <$> non_legacy servers);
      trace := trace s ++ [EvExt get_compute_physical_summary_list true];
      dirs := dirs s; files := files s; clock := S (clock s) |}).
Proof.
  intros Hw. unfold get_server_list, try_except, bind, external, bind, tick.
  rewrite Hw. simpl. rewrite get_server_list_loop_eq. reflexivity.
Qed.

Lemma get_server_list_Fault w s msg :
  w_summary_list w (clock s) = Fault msg →
  get_server_list w s =
  (Ok None,
   {| heap := heap s;
      trace := (trace s ++ [EvExt get_compute_physical_summary_list false])
               ++ [EvPrint msg];
      dirs := dirs s; files := files s; clock := S (clock s) |}).
Proof.
  intros Hw. unfold get_server_list, try_except, bind, external, bind, tick.
  rewrite Hw. reflexivity.
Qed.

Lemma lookup_allocated {A} (h recs : list A) :
  (fun d => (h ++ recs) !! d) <$> seq (length h) (length recs) = Some <$> recs.
Proof.
  revert h; induction recs as [|x recs IH]; intros h; [reflexivity |].
  simpl. f_equal.
  - rewrite lookup_app_r by lia. rewrite Nat.sub_diag. reflexivity.
  - specialize (IH (h ++ [x])).
    rewrite length_app, <- app_assoc in IH. simpl in IH.
    replace (length h + 1) with (S (length h)) in IH by lia. exact IH.
Qed.

(** C3. When the platform returns a server list, the inventory returns one
    fresh dict per server whose management mode is not "UCSM", in the order of
    the list, and each dict holds the server's identifier under "moid" and
    nothing else. *)
Theorem C3_inventory_excludes_legacy (w : world) (s : state)
    (servers : list physical_summary) :
  w_summary_list w (clock s) = Reply servers →
  ∃ refs s',
    get_server_list w s = (Ok (Some refs), s') ∧
    NoDup refs ∧
    (fun d => heap s' !! d) <$> refs =
    (fun sv => Some {[ "moid" := ps_moid sv ]}) <$>
      filter (fun sv => ps_management_mode sv ≠ "UCSM") servers.
Proof.
  intros Hw. rewrite (get_server_list_Reply w s servers Hw).
  eexists _, _; split; [reflexivity |]. split; [apply NoDup_seq |]. simpl.
  fold (non_legacy servers).
  rewrite <- (length_fmap record_of (non_legacy servers)).
  rewrite lookup_allocated, <- list_fmap_compose. reflexivity.
Qed.

(** One legacy-managed and one other server: only the other one is kept. *)
Lemma C3_inventory_witness :
  w_summary_list world_mixed 0 = Reply [server_U; server_B] ∧
  ∃ refs s',
    get_server_list world_mixed (initial ∅ ∅) = (Ok (Some refs), s') ∧
    NoDup refs ∧
    (fun d => heap s' !! d) <$> refs =
    (fun sv => Some {[ "moid" := ps_moid sv ]}) <$>
      filter (fun sv => ps_management_mode sv ≠ "UCSM") [server_U; server_B].
Proof.
  split; [reflexivity |].
  apply (C3_inventory_excludes_legacy world_mixed (initial ∅ ∅)).
  reflexivity.
Defined.

Example inventory_mixed :
  (get_server_list world_mixed (initial ∅ ∅)).1 = Ok (Some [0]) ∧
  heap (get_server_list world_mixed (initial ∅ ∅)).2 = [ {[ "moid" := "B" ]} ].
Proof. split; vm_compute; reflexivity. Qed.

(** *** Facts about the records *)

Lemma has_key_insert_ne key key' v (r : record) :
  key ≠ key' → has_key key (<[key' := v]> r) = has_key key r.
Proof. intros Hne. unfold has_key. rewrite lookup_insert_ne by auto. reflexivity. Qed.

Lemma has_key_insert key v (r : record) : has_key key (<[key := v]> r) = true.
Proof.
  unfold has_key. rewrite lookup_insert_eq.
  apply bool_decide_eq_true. eexists; reflexivity.
Qed.

Lemma together_empty : log_fields_together ∅ = true.
Proof. reflexivity. Qed.

Lemma together_deref h server :
  heap_together h → log_fields_together (default ∅ (h !! server)) = true.
Proof.
  intros Hh. destruct (h !! server) as [r|] eqn:Hr; simpl.
  - eapply Forall_lookup_1 in Hh; [exact Hh | exact Hr].
  - apply together_empty.
Qed.


Lemma heap_together_settings h server v :
  heap_together h → heap_together (alter (insert "setting_moid" v) server h).
Proof.
  intros Hh. apply Forall_alter; [exact Hh |].
  intros r _ Hr. unfold log_fields_together.
  rewrite !has_key_insert_ne by discriminate. exact Hr.
Qed.

Lemma heap_together_logs h server v1 v2 :
  heap_together h →
  heap_together (alter (insert "endpoint_filename" v2) server
                   (alter (insert "endpoint_moid" v1) server h)).
Proof.
  intros Hh. rewrite list_alter_alter_eq.
  apply Forall_alter; [exact Hh |].
  intros r _ _. unfold log_fields_together. simpl.
  rewrite has_key_insert, has_key_insert_ne, has_key_insert by discriminate.
  reflexivity.
Qed.

(** *** The download guard *)

Lemma initial_run_inv P Φ d f : P [] → run_inv P [] Φ (initial d f).
Proof. intros HP; split; [exact HP |]. exists []; split; [reflexivity | constructor]. Qed.

Lemma run_inv_nil P Φ s :
  run_inv P [] Φ s → P (heap s) ∧ Forall (fun ev => Φ ev = true) (trace s).
Proof. intros [HP (post & -> & Hpost)]; split; [exact HP | exact Hpost]. Qed.

Lemma trigger_admitted ev : is_trigger ev = true → admitted ev = true.
Proof. destruct ev as [| [] | |]; simpl; congruence. Qed.

(** C5. In every run, every dict the downloader is called with holds the
    log identifier "endpoint_moid". *)
Theorem C5_downloader_only_with_log_identifier (w : world) (d : gset string)
    (f : gmap string text) :
  Forall (fun ev => admitted ev = true) (trace (run w d f).2).
Proof.
  assert (inv (run_inv (fun _ => True) [] admitted) (fun _ => True) (main w))
    as Hmain.
  { apply run_inv_main; try (intros; exact Logic.I); try reflexivity.
    - intros fn server h _ H.
      destruct fn; try reflexivity. discriminate.
    - intros server h _ H; exact H.
    - intros; right; exact Logic.I. }
  destruct (Hmain (initial d f)) as [Hrun _]; [apply initial_run_inv, Logic.I |].
  apply run_inv_nil in Hrun. apply Hrun.
Qed.

(** A's dict has no log identifier and B's has one: the downloader is
    called for B (reference 1) alone. *)
Example download_skips_unresolved :
  (run world_A_without_log ∅ ∅).1 = Ok tt ∧
  has_key "endpoint_moid" (deref 0 (run world_A_without_log ∅ ∅).2) = false ∧
  has_key "endpoint_moid" (deref 1 (run world_A_without_log ∅ ∅).2) = true ∧
  downloaded (trace (run world_A_without_log ∅ ∅).2) = [1].
Proof. repeat split; vm_compute; reflexivity. Qed.

(** *** The two log fields go together *)



(** *** The two phases *)

Lemma bind_Ok {A B} (m : M A) (k : A -> M B) s a s' :
  m s = (Ok a, s') → bind m k s = k a s'.
Proof. intros H. unfold bind. rewrite H. reflexivity. Qed.

Lemma bind_Raise {A B} (m : M A) (k : A -> M B) s e s' :
  m s = (Raise e, s') → bind m k s = (Raise e, s').
Proof. intros H. unfold bind. rewrite H. reflexivity. Qed.

Ltac grow_leaf :=
  intros;
  first
    [ exact Logic.I
    | apply tr_inv_log; [reflexivity | assumption]
    | eapply tr_inv_same; [| eassumption]; reflexivity ].

Lemma grows_after {A} (m : M A) ev s :
  (∀ pre, inv (tr_inv pre (fun _ => true)) (fun _ => True) m) →
  ∃ post, trace (m (log ev s).2).2 = trace s ++ ev :: post.
Proof.
  intros H. destruct (H (trace s ++ [ev]) (log ev s).2) as [(post & Htr & _) _].
  { exists []; split; [simpl; rewrite app_nil_r; reflexivity | constructor]. }
  exists post. rewrite Htr, <- app_assoc. reflexivity.
Qed.

Lemma entered_get_server_settings w server s :
  ∃ post, trace (get_server_settings w server s).2 =
          trace s ++ EvCall Fget_server_settings server (deref server s) :: post.
Proof.
  unfold get_server_settings. rewrite bind_enter.
  apply grows_after. intros pre. inv_struct; grow_leaf.
Qed.

Lemma entered_set_collect_sel w server s :
  ∃ post, trace (set_collect_sel w server s).2 =
          trace s ++ EvCall Fset_collect_sel server (deref server s) :: post.
Proof.
  unfold set_collect_sel. rewrite bind_enter.
  apply grows_after. intros pre. inv_struct; grow_leaf.
Qed.

Lemma entered_get_endpoint_logs w server s :
  ∃ post, trace (get_endpoint_logs w server s).2 =
          trace s ++ EvCall Fget_endpoint_logs server (deref server s) :: post.
Proof.
  unfold get_endpoint_logs. rewrite bind_enter.
  apply grows_after. intros pre. inv_struct; try inv_leaf; grow_leaf.
Qed.

Lemma staged_app server tr post : staged server tr → staged server (tr ++ post).
Proof.
  intros ((r1 & H1) & (r2 & H2) & (r3 & H3)).
  repeat split; eexists; apply elem_of_app; left; eassumption.
Qed.

(** One turn of the first loop that returns has entered the three
    functions. *)
Lemma trigger_body_staged w server s s1 :
  (get_server_settings w server >>
   set_collect_sel w server >>
   get_endpoint_logs w server) s = (Ok tt, s1) →
  staged server (trace s1).
Proof.
  unfold bind.
  destruct (get_server_settings w server s) as [[[]|e] sa] eqn:H1;
    [| discriminate].
  destruct (set_collect_sel w server sa) as [[[]|e] sb] eqn:H2;
    [| discriminate].
  intros H3.
  destruct (entered_get_server_settings w server s) as [p1 Hp1].
  destruct (entered_set_collect_sel w server sa) as [p2 Hp2].
  destruct (entered_get_endpoint_logs w server sb) as [p3 Hp3].
  rewrite H1 in Hp1. rewrite H2 in Hp2. rewrite H3 in Hp3. simpl in *.
  unfold staged. rewrite Hp3, Hp2, Hp1.
  repeat split; eexists; rewrite !elem_of_app, !elem_of_cons; eauto 8.
Qed.

Lemma trigger_phase_grows w l s :
  ∃ post, trace (trigger_phase w l s).2 = trace s ++ post.
Proof.
  destruct (run_inv_trigger_phase w (fun _ => True) (trace s) (fun _ => true)
              (fun _ => True)) with (l := l) (s := s) as [[_ (post & H & _)] _];
    try (intros; first [exact Logic.I | reflexivity]).
  - split; [exact Logic.I | apply tr_inv_start].
  - exists post; exact H.
Qed.

Lemma trigger_phase_staged w refs s s' :
  trigger_phase w (Some refs) s = (Ok tt, s') →
  Forall (fun server => staged server (trace s')) refs.
Proof.
  revert s; induction refs as [|server refs IH]; intros s; [constructor |].
  unfold trigger_phase, for_in. simpl. unfold bind at 1.
  match goal with
  | |- match ?body s with _ => _ end = _ → _ =>
      destruct (body s) as [[[]|e] s1] eqn:Hbody; [| discriminate]
  end.
  intros Hrest. constructor.
  - destruct (trigger_phase_grows w (Some refs) s1) as [post Hpost].
    unfold trigger_phase, for_in in Hpost. rewrite Hrest in Hpost.
    simpl in Hpost. rewrite Hpost. apply staged_app.
    apply (trigger_body_staged w server s). exact Hbody.
  - apply (IH s1). exact Hrest.
Qed.

Lemma trigger_before_delay ev : is_trigger ev = true → before_delay ev = true.
Proof.
  destruct ev as [| [] | [] |]; intros H; first [discriminate H | reflexivity].
Qed.

Lemma download_after_delay ev : is_download ev = true → after_delay ev = true.
Proof.
  destruct ev as [| [] | [] |]; intros H; first [discriminate H | reflexivity].
Qed.

(** Until the delay only trigger-phase events and prints are emitted, and
    the heap keeps its size. *)
Lemma trigger_phase_before_delay w n l s :
  run_inv (fun h => length h = n) [] before_delay s →
  run_inv (fun h => length h = n) [] before_delay (trigger_phase w l s).2.
Proof.
  intros Hs.
  apply (run_inv_trigger_phase w (fun h => length h = n) [] before_delay
           (fun _ => True)); try (intros; exact Logic.I); try exact Hs.
  - intros h server v <-. apply length_alter.
  - intros h server v1 v2 <-. rewrite !length_alter. reflexivity.
  - reflexivity.
  - intros c ok H. exact (trigger_before_delay _ H).
  - intros f server h _ H. destruct f; try reflexivity. discriminate.
Qed.

(** From the delay on only download events and prints are emitted. *)
Lemma download_phase_after_delay w n l s :
  length (heap s) = n →
  length (heap (download_phase w l s).2) = n ∧
  ∃ post, trace (download_phase w l s).2 = trace s ++ post ∧
          Forall (fun ev => after_delay ev = true) post.
Proof.
  intros Hs.
  apply (run_inv_download_phase w (fun h => length h = n) (trace s) after_delay
           (fun _ => True)); try (intros; exact Logic.I).
  - reflexivity.
  - intros c ok H. exact (download_after_delay _ H).
  - reflexivity.
  - intros; right; exact Logic.I.
  - split; [exact Hs | apply tr_inv_start].
Qed.

(** C7. In every run, either the run is aborted before the delay and then
    nothing of the download phase has happened, or the trace splits at the
    single [time.sleep(5)]: before it there is no download event and the three
    trigger-phase functions have been entered for every server of the
    inventory, after it there is no trigger-phase event. *)
Theorem C7_trigger_phase_precedes_downloads (w : world) (d : gset string)
    (f : gmap string text) :
  ((∃ e, (run w d f).1 = Raise e) ∧
   Forall (fun ev => before_delay ev = true) (trace (run w d f).2))
  ∨
  ∃ pre post,
    trace (run w d f).2 = pre ++ [EvPrint WAITING; EvSleep 5] ++ post ∧
    Forall (fun ev => before_delay ev = true) pre ∧
    Forall (fun ev => after_delay ev = true) post ∧
    Forall (fun server => staged server pre)
           (seq 0 (length (heap (run w d f).2))).
Proof.
  unfold run, main.
  set (s1 := (log (EvPrint WARNING) (initial d f)).2).
  rewrite (bind_Ok (print WARNING) _ (initial d f) tt s1) by reflexivity.
  destruct (w_summary_list w 0) as [servers|msg] eqn:Hw.
  - rewrite (bind_Ok _ _ _ _ _ (get_server_list_Reply w s1 servers Hw)).
    cbv beta.
    set (n := length (non_legacy servers)).
    match goal with
    | |- context [bind (trigger_phase w (Some ?l)) _ ?s] =>
        set (refs := l); set (s2 := s)
    end.
    assert (run_inv (fun h => length h = n) [] before_delay s2) as Hs2.
    { split.
      - subst s2; simpl. rewrite length_fmap. reflexivity.
      - eexists; split; [reflexivity |]. repeat constructor. }
    pose proof (trigger_phase_before_delay w n (Some refs) s2 Hs2) as Htp.
    destruct (trigger_phase w (Some refs) s2) as [[[]|e] s3] eqn:Htrig.
    + rewrite (bind_Ok _ _ _ _ _ Htrig).
      apply run_inv_nil in Htp; simpl in Htp. destruct Htp as [Hlen3 Hpre].
      set (s5 := (sleep 5 (print WAITING s3).2).2).
      rewrite (bind_Ok (print WAITING) _ s3 tt (print WAITING s3).2)
        by reflexivity.
      rewrite (bind_Ok (sleep 5) _ (print WAITING s3).2 tt s5) by reflexivity.
      assert (trace s5 = trace s3 ++ [EvPrint WAITING; EvSleep 5]) as Htr5.
      { subst s5; simpl. rewrite <- app_assoc. reflexivity. }
      destruct (download_phase_after_delay w n (Some refs) s5 Hlen3)
        as (Hlen6 & post & Htr6 & Hpost).
      pose proof (trigger_phase_staged w refs s2 s3 Htrig) as Hstaged.
      right. exists (trace s3).
      destruct (download_phase w (Some refs) s5) as [[[]|e] s6] eqn:Hdown;
        cbn [snd] in Hlen6, Htr6.
      * rewrite (bind_Ok _ _ _ _ _ Hdown). simpl.
        exists (post ++ [EvPrint FINISHED]). rewrite Htr6, Htr5, Hlen6.
        split; [rewrite <- !app_assoc; reflexivity |].
        split; [exact Hpre |].
        split; [apply Forall_app; split; [exact Hpost | repeat constructor] |].
        exact Hstaged.
      * rewrite (bind_Raise _ _ _ _ _ Hdown). simpl.
        exists post. rewrite Htr6, Htr5, Hlen6.
        split; [rewrite <- !app_assoc; reflexivity |].
        split; [exact Hpre |]. split; [exact Hpost | exact Hstaged].
    + rewrite (bind_Raise _ _ _ _ _ Htrig).
      apply run_inv_nil in Htp; simpl in Htp.
      left; split; [eexists; reflexivity | apply Htp].
  - rewrite (bind_Ok _ _ _ _ _ (get_server_list_Fault w s1 msg Hw)).
    left; split; [eexists; reflexivity |]. simpl. repeat constructor.
Qed.

(** A run with one download: the sleep is event 9; nothing of the download
    phase comes before it and nothing of the trigger phase after it. *)
Example ordering_on_a_successful_run :
  trace (run world_mixed ∅ ∅).2 !! 9 = Some (EvSleep 5) ∧
  filter (fun ev => is_download ev = true) (take 9 (trace (run world_mixed ∅ ∅).2))
    = [] ∧
  filter (fun ev => is_trigger ev = true) (drop 9 (trace (run world_mixed ∅ ∅).2))
    = [] ∧
  downloaded (drop 9 (trace (run world_mixed ∅ ∅).2)) = [0].
Proof. repeat split; vm_compute; reflexivity. Qed.

(** *** The output folder *)

Lemma created_app tr1 tr2 : created (tr1 ++ tr2) = created tr1 + created tr2.
Proof. unfold created. rewrite filter_app, length_app. reflexivity. Qed.

Lemma created_one ev : created [ev] = if is_created ev then 1 else 0.
Proof.
  unfold created. destruct (is_created ev) eqn:Hev.
  - rewrite filter_cons_True by exact Hev. reflexivity.
  - rewrite filter_cons_False by (rewrite Hev; discriminate). reflexivity.
Qed.

Lemma created_log ev s :
  is_created ev = false → created (trace (log ev s).2) = created (trace s).
Proof.
  intros Hev. simpl. rewrite created_app. unfold created at 2.
  rewrite filter_cons_False by (rewrite Hev; discriminate). simpl. lia.
Qed.

Lemma folder_inv_log w ev s :
  is_created ev = false → folder_inv w s → folder_inv w (log ev s).2.
Proof.
  intros Hev [Hle Hex]. unfold folder_inv. rewrite created_log by exact Hev.
  split; [exact Hle | exact Hex].
Qed.

Lemma folder_inv_same w s s' :
  trace s' = trace s → dirs s' = dirs s → files s' = files s →
  folder_inv w s → folder_inv w s'.
Proof.
  unfold folder_inv, path_exists. intros -> -> ->. auto.
Qed.

Lemma path_exists_put_file p path g s :
  path_exists p s = true → path_exists p (put_file path g s).2 = true.
Proof.
  unfold path_exists; simpl. intros H.
  apply orb_true_iff in H. apply orb_true_iff.
  destruct H as [H|H]; [left; exact H | right].
  apply bool_decide_eq_true in H. apply bool_decide_eq_true.
  destruct (decide (path = p)) as [->|Hne].
  - rewrite lookup_insert_eq. eexists; reflexivity.
  - rewrite lookup_insert_ne by exact Hne. exact H.
Qed.

Lemma folder_inv_put_file w path g s :
  folder_inv w s → folder_inv w (put_file path g s).2.
Proof.
  intros [Hle Hex]; split; [exact Hle |].
  intros H. apply path_exists_put_file, Hex, H.
Qed.

Ltac folder_leaf :=
  intros;
  first
    [ exact Logic.I
    | apply folder_inv_log; [reflexivity | assumption]
    | apply folder_inv_put_file; assumption
    | eapply folder_inv_same; [| | | eassumption]; reflexivity ].

(** Lines 181-183 keep the count: the folder is created only when absent,
    and it is absent only if it was never created. *)
Lemma folder_inv_ensure_folder w :
  inv (folder_inv w) (fun _ => True) (ensure_folder w).
Proof.
  intros s Hs; split; [| intros; exact Logic.I].
  unfold ensure_folder, bind, os_path_exists.
  destruct (path_exists (folder_path w) s) eqn:Hp; simpl; [exact Hs |].
  assert (created (trace s) = 0) as H0.
  { destruct Hs as [Hle Hex].
    destruct (created (trace s)) as [|[|k]]; [reflexivity | | lia].
    rewrite Hex in Hp by reflexivity. discriminate. }
  unfold makedirs, bind, os_path_exists. rewrite Hp.
  unfold external, bind, tick; simpl.
  destruct (w_makedirs w (clock s) (folder_path w)); simpl.
  - unfold folder_inv; simpl. rewrite !created_app, !created_one, H0. simpl.
    split; [lia |].
    intros _. unfold path_exists; simpl.
    apply orb_true_iff; left. apply bool_decide_eq_true. set_solver.
  - unfold folder_inv; simpl. rewrite !created_app, !created_one, H0. simpl.
    split; [lia |]. intros; discriminate.
Qed.

Section FolderInvariant.
Variable w : world.

Let I := folder_inv w.
Let E : exn -> Prop := fun _ => True.

Lemma folder_inv_get_server_list_loop servers acc :
  inv I E (get_server_list_loop servers acc).
Proof.
  revert acc; induction servers as [|sv servers IH]; intros acc; simpl.
  - apply inv_ret.
  - destruct (bool_decide _); [| apply IH].
    apply inv_bind; [| intros d; apply IH].
    inv_leaf. subst I; folder_leaf.
Qed.

Lemma folder_inv_get_server_list : inv I E (get_server_list w).
Proof.
  unfold get_server_list. inv_struct;
    try apply folder_inv_get_server_list_loop; subst I; folder_leaf.
Qed.

Lemma folder_inv_trigger_phase l : inv I E (trigger_phase w l).
Proof.
  unfold trigger_phase, for_in, get_server_settings, set_collect_sel,
    get_endpoint_logs.
  destruct l as [l|]; [| apply inv_raise, Logic.I].
  inv_struct; try inv_leaf; subst I; folder_leaf.
Qed.

Lemma folder_inv_download_phase l : inv I E (download_phase w l).
Proof.
  unfold download_phase, for_in, download_sel, save, open_write, write.
  destruct l as [l|]; [| apply inv_raise, Logic.I].
  inv_struct; try apply folder_inv_ensure_folder; subst I; folder_leaf.
Qed.

Lemma folder_inv_main : inv I E (main w).
Proof.
  unfold main. inv_struct;
    try apply folder_inv_get_server_list;
    try apply folder_inv_trigger_phase;
    try apply folder_inv_download_phase; subst I; folder_leaf.
Qed.
End FolderInvariant.

Lemma ensure_folder_present w s :
  path_exists (folder_path w) s = true → ensure_folder w s = (Ok tt, s).
Proof.
  intros Hp. unfold ensure_folder, bind, os_path_exists. rewrite Hp.
  reflexivity.
Qed.

Lemma ensure_folder_Ok w s :
  (ensure_folder w s).1 = Ok tt →
  path_exists (folder_path w) (ensure_folder w s).2 = true.
Proof.
  unfold ensure_folder, bind, os_path_exists.
  destruct (path_exists (folder_path w) s) eqn:Hp; simpl; [intros _; exact Hp |].
  unfold makedirs, bind, os_path_exists. rewrite Hp.
  unfold external, bind, tick; simpl.
  destruct (w_makedirs w (clock s) (folder_path w)); simpl; [| discriminate].
  intros _. unfold path_exists; simpl.
  apply orb_true_iff; left. apply bool_decide_eq_true. set_solver.
Qed.

Lemma ensure_folder_no_file_exists_error w s :
  is_file_exists_error (ensure_folder w s).1 = false.
Proof.
  unfold ensure_folder, bind, os_path_exists.
  destruct (path_exists (folder_path w) s) eqn:Hp; simpl; [reflexivity |].
  unfold makedirs, bind, os_path_exists. rewrite Hp.
  unfold external, bind, tick; simpl.
  destruct (w_makedirs w (clock s) (folder_path w)); reflexivity.
Qed.

(** An invocation that finds the folder absent, and is allowed to create
    it, creates it: that is where the single creation of a run happens. *)
Lemma ensure_folder_creates_when_absent w s :
  path_exists (folder_path w) s = false →
  w_makedirs w (clock s) (folder_path w) = Reply tt →
  (ensure_folder w s).1 = Ok tt ∧
  created (trace (ensure_folder w s).2) = S (created (trace s)).
Proof.
  intros Hp Hmk. unfold ensure_folder, bind, os_path_exists. rewrite Hp. simpl.
  unfold makedirs, bind, os_path_exists. rewrite Hp.
  unfold external, bind, tick; simpl. rewrite Hmk. simpl.
  split; [reflexivity |]. rewrite !created_app, !created_one. simpl. lia.
Qed.

(** Three downloads in one run, one creation of the folder. *)
Example three_downloads_one_folder :
  downloaded (trace (run world_three ∅ ∅).2) = [0; 1; 2] ∧
  created (trace (run world_three ∅ ∅).2) = 1 ∧
  elements (dirs (run world_three ∅ ∅).2) = ["/home/user/SEL_logs"].
Proof. repeat split; vm_compute; reflexivity. Qed.

(** *** The downloader, step by step *)

Lemma bind_external_Reply {A B} c (answer : nat -> reply A) (k : A -> M B) s a :
  answer (clock s) = Reply a →
  bind (external c answer) k s = k a (after_call c true s).
Proof. intros H. unfold bind, external, bind, tick. rewrite H. reflexivity. Qed.

Lemma bind_external_Fault {A B} c (answer : nat -> reply A) (k : A -> M B) s msg :
  answer (clock s) = Fault msg →
  bind (external c answer) k s =
  (Raise (ExternalError msg), after_call c false s).
Proof. intros H. unfold bind, external, bind, tick. rewrite H. reflexivity. Qed.

Lemma try_except_Ok {A} (body : M A) h s a s' :
  body s = (Ok a, s') → try_except body h s = (Ok a, s').
Proof. intros H. unfold try_except. rewrite H. reflexivity. Qed.

Lemma try_except_Raise {A} (body : M A) h s e s' :
  body s = (Raise e, s') → try_except body h s = h e s'.
Proof. intros H. unfold try_except. rewrite H. reflexivity. Qed.

(** The folder step when the file system lets it create the folder. *)
Lemma ensure_folder_allowed w s :
  (∀ n, w_makedirs w n (folder_path w) = Reply tt) →
  ∃ s', ensure_folder w s = (Ok tt, s') ∧
        heap s' = heap s ∧ files s' = files s ∧
        ∃ post, trace s' = trace s ++ post.
Proof.
  intros Hmk. unfold ensure_folder, bind, os_path_exists.
  destruct (path_exists (folder_path w) s) eqn:Hp; simpl.
  - exists s; repeat split. exists []; symmetry; apply app_nil_r.
  - unfold makedirs, bind, os_path_exists. rewrite Hp.
    unfold external, bind, tick; simpl. rewrite Hmk. simpl.
    eexists; split; [reflexivity |]. simpl. repeat split.
    eexists. rewrite <- app_assoc. reflexivity.
Qed.

(** Lines 185-187 when everything succeeds. *)
Lemma save_decodable w path filename content t s :
  (∀ n, w_open w n path = Reply tt) →
  (∀ n, w_write w n path = Reply tt) →
  decode_utf8 (Byte.to_N <$> content) = Some t →
  save w path filename content s =
  (Ok tt,
   {| heap := heap s;
      trace := trace s ++ [EvExt (open_w path) true;
                           EvExt (file_write path) true;
                           EvPrint (FILE_CREATED filename folder_name)];
      dirs := dirs s;
      files := <[path := t]> (files s);
      clock := S (S (clock s)) |}).
Proof.
  intros Ho Hw Hd. unfold save, open_write, write, decode.
  unfold bind, external, bind, tick; simpl. rewrite Ho; simpl.
  rewrite Hd; simpl. rewrite Hw; simpl.
  rewrite lookup_insert_eq, insert_insert_eq. simpl.
  unfold print, log; simpl. rewrite <- !app_assoc. reflexivity.
Qed.

(** Lines 185-186 when the body does not decode: the file is already
    opened, hence created or emptied. *)
Lemma save_undecodable w path filename content s :
  (∀ n, w_open w n path = Reply tt) →
  decode_utf8 (Byte.to_N <$> content) = None →
  save w path filename content s =
  (Raise UnicodeDecodeError,
   {| heap := heap s;
      trace := trace s ++ [EvExt (open_w path) true];
      dirs := dirs s;
      files := <[path := []]> (files s);
      clock := S (clock s) |}).
Proof.
  intros Ho Hd. unfold save, open_write, write, decode.
  unfold bind, external, bind, tick; simpl. rewrite Ho; simpl.
  rewrite Hd; simpl. reflexivity.
Qed.

(** The downloader up to the folder step. *)
Lemma download_sel_reaches_save w s server X F body :
  deref server s !! "endpoint_moid" = Some X →
  deref server s !! "endpoint_filename" = Some F →
  (∀ n, w_auth w n = Reply tt) →
  (∀ n, w_get w n (request_url w X) = Reply body) →
  (∀ n, w_makedirs w n (folder_path w) = Reply tt) →
  ∃ s', files s' = files s ∧
    download_sel w server s =
    try_except (save w (os_path_join (folder_path w) F) F body)
      (fun e => print ("Impossible to save SEL file: " +:+ str_exn e)) s'.
Proof.
  intros Hm Hf Hauth Hget Hmk.
  unfold download_sel. rewrite bind_enter.
  rewrite (bind_getitem_Some server "endpoint_moid" X) by exact Hm.
  rewrite (bind_getitem_Some server "endpoint_filename" F) by exact Hf.
  rewrite (bind_external_Reply _ _ _ _ tt) by apply Hauth.
  cbv zeta.
  set (s2 := after_call IntersightAuth true _).
  set (s3 := after_call (requests_get (request_url w X)) true s2).
  destruct (ensure_folder_allowed w s3 Hmk) as (s4 & He & _ & Hfiles & _).
  exists s4; split; [rewrite Hfiles; reflexivity |].
  unfold try_except at 1.
  rewrite (bind_external_Reply _ _ _ _ body) by apply Hget.
  fold s3. unfold try_except, bind. rewrite He.
  destruct (save w _ F body s4) as [[[]|e] s5]; reflexivity.
Qed.

(** *** Where the file goes *)

Lemma append_nonempty a b : b ≠ "" → a +:+ b ≠ "".
Proof. destruct a; simpl; [auto | discriminate]. Qed.

Lemma endswith_sep_append a b :
  b ≠ "" → endswith_sep (a +:+ b) = endswith_sep b.
Proof.
  intros Hb. induction a as [|c a IH]; [reflexivity |].
  change (String c a +:+ b) with (String c (a +:+ b)).
  pose proof (append_nonempty a b Hb) as Hne.
  simpl. destruct (a +:+ b); [contradiction | exact IH].
Qed.

Lemma folder_path_shape w :
  folder_path w ≠ "" ∧ endswith_sep (folder_path w) = false.
Proof.
  unfold folder_path, os_path_join, folder_name. simpl.
  destruct (_ || _); split;
    first [ apply append_nonempty; discriminate
          | rewrite endswith_sep_append by discriminate; reflexivity ].
Qed.

(** A relative name is put under the folder. *)
Lemma os_path_join_relative a b :
  a ≠ "" → endswith_sep a = false → startswith_sep b = false →
  os_path_join a b = a +:+ "/" +:+ b.
Proof.
  intros Ha Hend Hb. unfold os_path_join. rewrite Hb, Hend.
  rewrite bool_decide_eq_false_2 by exact Ha. reflexivity.
Qed.

(** An absolute name replaces the folder. *)
Lemma os_path_join_absolute a b : startswith_sep b = true → os_path_join a b = b.
Proof. intros Hb. unfold os_path_join. rewrite Hb. reflexivity. Qed.

(** The claim, as the specification words it, fails for an absolute
    filename: with "/tmp/sel.txt" the download and the save succeed, and
    nothing is written inside the output folder. *)
Lemma absolute_filename_refutes_download_claim :
  ¬ download_claim world_mixed (resolved "X" "/tmp/sel.txt") 0
      "X" "/tmp/sel.txt" body_hi text_hi.
Proof.
  intros H.
  destruct H as (_ & H & _); try (intros; reflexivity).
  vm_compute in H. discriminate H.
Qed.

(** It fails as well for a filename that climbs out of the folder: the file
    SEL_logs/../sel.txt is written, and it is not inside SEL_logs. *)
Lemma parent_filename_refutes_download_claim :
  ¬ download_claim world_mixed (resolved "X" "../sel.txt") 0
      "X" "../sel.txt" body_hi text_hi.
Proof.
  intros H.
  destruct H as (_ & _ & H); try (intros; reflexivity).
  vm_compute in H. discriminate H.
Qed.

(** The file is written at the absolute name itself. *)
Example absolute_filename_escapes :
  (download_sel world_mixed 0 (resolved "X" "/tmp/sel.txt")).1 = Ok tt ∧
  map_to_list (files (download_sel world_mixed 0
                        (resolved "X" "/tmp/sel.txt")).2) =
  [("/tmp/sel.txt", text_hi)].
Proof. split; vm_compute; reflexivity. Qed.

(** C4 fails on the code. The file path is [os.path.join(folder_path,
    filename)] with the filename as the platform gave it.  For the filename
    "/tmp/sel.txt" the download and the save succeed and the only file written
    is /tmp/sel.txt; for "../sel.txt" it is /home/user/SEL_logs/../sel.txt.
    Neither lies inside the output folder, and both times the downloader
    prints that the file was created in folder 'SEL_logs'. *)
Theorem C4_filename_can_leave_the_output_folder :
  (download_sel world_mixed 0 (resolved "X" "/tmp/sel.txt")).1 = Ok tt ∧
  map_to_list (files (download_sel world_mixed 0
                        (resolved "X" "/tmp/sel.txt")).2)
    = [("/tmp/sel.txt", text_hi)] ∧
  inside_folder (folder_path world_mixed) "/tmp/sel.txt" = false ∧
  last (console (trace (download_sel world_mixed 0
                          (resolved "X" "/tmp/sel.txt")).2))
    = Some "File '/tmp/sel.txt' created in folder 'SEL_logs'." ∧
  (download_sel world_mixed 0 (resolved "X" "../sel.txt")).1 = Ok tt ∧
  map_to_list (files (download_sel world_mixed 0
                        (resolved "X" "../sel.txt")).2)
    = [("/home/user/SEL_logs/../sel.txt", text_hi)] ∧
  inside_folder (folder_path world_mixed) "/home/user/SEL_logs/../sel.txt"
    = false ∧
  last (console (trace (download_sel world_mixed 0
                          (resolved "X" "../sel.txt")).2))
    = Some "File '../sel.txt' created in folder 'SEL_logs'.".
Proof. repeat split; vm_compute; reflexivity. Qed.

(** *** Plain file names stay inside the folder *)

Lemma split_path_nonempty p : split_path p ≠ [].
Proof.
  destruct p as [|c p]; simpl; [discriminate |].
  destruct (bool_decide _); [discriminate |].
  destruct (split_path p); discriminate.
Qed.

Lemma split_path_no_sep name : no_sep name = true → split_path name = [name].
Proof.
  induction name as [|c name IH]; [reflexivity |]. simpl.
  intros H. apply andb_true_iff in H. destruct H as [Hc Hn].
  apply negb_true_iff in Hc. rewrite Hc, (IH Hn). reflexivity.
Qed.

Lemma split_path_append a name :
  no_sep name = true →
  split_path (a +:+ "/" +:+ name) = split_path a ++ [name].
Proof.
  intros Hn. induction a as [|c a IH].
  - simpl. change ("" +:+ name) with name.
    rewrite (split_path_no_sep name Hn). reflexivity.
  - change (String c a +:+ "/" +:+ name) with (String c (a +:+ "/" +:+ name)).
    simpl. rewrite IH. destruct (bool_decide (c = "/"%char)); [reflexivity |].
    pose proof (split_path_nonempty a) as Hne.
    destruct (split_path a) as [|x xs]; [contradiction | reflexivity].
Qed.

Lemma resolve_path_plain a name :
  plain_name name = true →
  resolve_path (a +:+ "/" +:+ name) = resolve_path a ++ [name].
Proof.
  intros Hp. apply andb_true_iff in Hp. destruct Hp as [Hn Hspecial].
  apply negb_true_iff in Hspecial.
  apply orb_false_iff in Hspecial. destruct Hspecial as [Hs Hdd].
  unfold resolve_path. rewrite (split_path_append a name Hn), fold_left_app.
  simpl. unfold walk at 1. rewrite Hs, Hdd. reflexivity.
Qed.

Lemma inside_folder_plain a name :
  plain_name name = true → inside_folder a (a +:+ "/" +:+ name) = true.
Proof.
  intros Hp. unfold inside_folder. rewrite (resolve_path_plain a name Hp).
  apply andb_true_iff; split.
  - apply Nat.ltb_lt. rewrite length_app. simpl. lia.
  - apply bool_decide_eq_true. apply take_app_length.
Qed.

Lemma plain_name_relative name : plain_name name = true → startswith_sep name = false.
Proof.
  intros Hp. apply andb_true_iff in Hp. destruct Hp as [Hn _].
  destruct name as [|c name]; [reflexivity |]. simpl in Hn.
  apply andb_true_iff in Hn. destruct Hn as [Hc _].
  apply negb_true_iff, bool_decide_eq_false in Hc.
  unfold startswith_sep.
  destruct (Ascii.ascii_dec c "/"%char) as [->|Hne]; [contradiction |].
  destruct c as [[] [] [] [] [] [] [] []]; try reflexivity. contradiction.
Qed.

(** Where the code does what the claim says: for a plain file name (no "/",
    not ".", not "..") the file is written inside the output folder, under
    exactly that name, with the decoded body. *)
Lemma download_writes_plain_name (w : world) (s : state) (server : nat)
    (X F : string) (body : list byte) (t : text) :
  plain_name F = true →
  download_claim w s server X F body t.
Proof.
  intros Hplain Hm Hf Hauth Hget Hd Hmk Ho Hw.
  destruct (download_sel_reaches_save w s server X F body Hm Hf Hauth Hget Hmk)
    as (s' & Hfiles & ->).
  rewrite (try_except_Ok _ _ _ _ _
             (save_decodable w _ F body t s' Ho Hw Hd)).
  simpl. split; [reflexivity |]. split.
  - destruct (folder_path_shape w) as [Hne Hend].
    rewrite <- (os_path_join_relative _ _ Hne Hend
                  (plain_name_relative F Hplain)).
    apply lookup_insert_eq.
  - apply inside_folder_plain, Hplain.
Qed.

(** Log identifier "X", filename "sel.txt": the file is SEL_logs/sel.txt. *)
Example download_writes_sel_txt :
  plain_name "sel.txt" = true ∧
  (download_sel world_mixed 0 (resolved "X" "sel.txt")).1 = Ok tt ∧
  files (download_sel world_mixed 0 (resolved "X" "sel.txt")).2
    !! (folder_path world_mixed +:+ "/" +:+ "sel.txt") = Some text_hi ∧
  inside_folder (folder_path world_mixed)
    (folder_path world_mixed +:+ "/" +:+ "sel.txt") = true.
Proof.
  split; [reflexivity |].
  apply (download_writes_plain_name world_mixed (resolved "X" "sel.txt") 0
           "X" "sel.txt" body_hi text_hi);
    intros; reflexivity.
Qed.

Example download_named_after_filename :
  map_to_list (files (download_sel world_mixed 0 (resolved "X" "sel.txt")).2) =
  [("/home/user/SEL_logs/sel.txt", text_hi)].
Proof. vm_compute; reflexivity. Qed.

(** *** A body that does not decode *)

(** C10. When the body of the response is not UTF-8, and the download, the
    folder step and the opening succeed, the downloader still returns: the
    exception is caught and printed, and the file named after the resolved
    filename is left on disk, empty. *)
Theorem C10_undecodable_body_leaves_empty_file (w : world) (s : state)
    (server : nat) (X F : string) (body : list byte) :
  deref server s !! "endpoint_moid" = Some X →
  deref server s !! "endpoint_filename" = Some F →
  (∀ n, w_auth w n = Reply tt) →
  (∀ n, w_get w n (request_url w X) = Reply body) →
  decode_utf8 (Byte.to_N <$> body) = None →
  (∀ n, w_makedirs w n (folder_path w) = Reply tt) →
  (∀ n, w_open w n (os_path_join (folder_path w) F) = Reply tt) →
  (download_sel w server s).1 = Ok tt ∧
  files (download_sel w server s).2 !! os_path_join (folder_path w) F
    = Some [] ∧
  last (trace (download_sel w server s).2) =
    Some (EvPrint ("Impossible to save SEL file: "
                   +:+ str_exn UnicodeDecodeError)).
Proof.
  intros Hm Hf Hauth Hget Hd Hmk Ho.
  destruct (download_sel_reaches_save w s server X F body Hm Hf Hauth Hget Hmk)
    as (s' & Hfiles & ->).
  rewrite (try_except_Raise _ _ _ _ _
             (save_undecodable w _ F body s' Ho Hd)).
  simpl. split; [reflexivity |]. split; [apply lookup_insert_eq |].
  apply last_snoc.
Qed.

(** The body [68 ff] is not UTF-8; the old contents of the file are lost. *)
Lemma C10_undecodable_witness :
  decode_utf8 (Byte.to_N <$> body_bad) = None ∧
  (download_sel world_bad_body 0 (resolved "X" "sel.txt")).1 = Ok tt ∧
  files (download_sel world_bad_body 0 (resolved "X" "sel.txt")).2
    !! os_path_join (folder_path world_bad_body) "sel.txt" = Some [] ∧
  last (trace (download_sel world_bad_body 0 (resolved "X" "sel.txt")).2) =
    Some (EvPrint ("Impossible to save SEL file: "
                   +:+ str_exn UnicodeDecodeError)).
Proof.
  split; [reflexivity |].
  apply (C10_undecodable_body_leaves_empty_file world_bad_body
           (resolved "X" "sel.txt") 0 "X" "sel.txt" body_bad);
    intros; reflexivity.
Defined.

(** *** Where a failure is not contained *)

(** Line 103 is outside the [try]: without a settings identifier the
    trigger raises, whatever the world. *)
Lemma set_collect_sel_without_settings w server s :
  deref server s !! "setting_moid" = None →
  (set_collect_sel w server s).1 = Raise (KeyError "setting_moid").
Proof.
  intros H. unfold set_collect_sel. rewrite bind_enter.
  rewrite bind_getitem_None by exact H. reflexivity.
Qed.

(** C1 fails on the code. Settings resolution fails for A and would succeed
    for B: the trigger raises [KeyError] on A's dict, the exception leaves the
    loop of [main], and B (reference 1) is never handled by any stage. *)
Theorem C1_settings_failure_aborts_the_run :
  (run world_A_settings_fail ∅ ∅).1 = Raise (KeyError "setting_moid") ∧
  has_key "setting_moid" (deref 0 (run world_A_settings_fail ∅ ∅).2) = false ∧
  entered_for 0 (trace (run world_A_settings_fail ∅ ∅).2)
    = [Fget_server_settings; Fset_collect_sel] ∧
  entered_for 1 (trace (run world_A_settings_fail ∅ ∅).2) = [] ∧
  downloaded (trace (run world_A_settings_fail ∅ ∅).2) = [].
Proof. repeat split; vm_compute; reflexivity. Qed.

(** With B first, B is triggered and its log is resolved, but the run is
    aborted on A before the download phase: nothing is downloaded. *)
Example settings_failure_after_B :
  (run world_B_then_A ∅ ∅).1 = Raise (KeyError "setting_moid") ∧
  entered_for 0 (trace (run world_B_then_A ∅ ∅).2)
    = [Fget_server_settings; Fset_collect_sel; Fget_endpoint_logs] ∧
  has_key "endpoint_moid" (deref 0 (run world_B_then_A ∅ ∅).2) = true ∧
  downloaded (trace (run world_B_then_A ∅ ∅).2) = [].
Proof. repeat split; vm_compute; reflexivity. Qed.

(** C2 fails on the code. When the server-listing call fails, the exception
    is caught and printed, the inventory yields [None], and the first loop of
    [main] raises [TypeError]: the run is aborted. *)
Theorem C2_listing_failure_aborts_the_run :
  (get_server_list world_listing_fails (initial ∅ ∅)).1 = Ok None ∧
  (run world_listing_fails ∅ ∅).1
    = Raise (TypeError "'NoneType' object is not iterable") ∧
  trace (run world_listing_fails ∅ ∅).2
    = [EvPrint WARNING; EvExt get_compute_physical_summary_list false;
       EvPrint "listing failed"].
Proof. repeat split; vm_compute; reflexivity. Qed.

(** The same for every world whose listing fails at the first call. *)
Lemma listing_failure_always_aborts w d f msg :
  w_summary_list w 0 = Fault msg →
  (run w d f).1 = Raise (TypeError "'NoneType' object is not iterable").
Proof.
  intros Hw. unfold run, main.
  rewrite (bind_Ok (print WARNING) _ (initial d f) tt
             (log (EvPrint WARNING) (initial d f)).2) by reflexivity.
  rewrite (bind_Ok _ _ _ _ _
             (get_server_list_Fault w (log (EvPrint WARNING) (initial d f)).2
                msg Hw)).
  reflexivity.
Qed.

(** C6 fails on the code. The final message is the last statement of
    [main]; it is not printed when the run is aborted by a missing settings
    identifier or by a failed listing. *)
Theorem C6_final_message_not_always_printed :
  console (trace (run world_A_settings_fail ∅ ∅).2)
    = [WARNING;
       "Impossible to get server settings for A : settings query failed"] ∧
  bool_decide (FINISHED ∈ console (trace (run world_A_settings_fail ∅ ∅).2))
    = false ∧
  bool_decide (FINISHED ∈ console (trace (run world_listing_fails ∅ ∅).2))
    = false.
Proof. repeat split; vm_compute; reflexivity. Qed.

(** The message is printed exactly by the runs that return. *)
Lemma final_message_when_returning w s :
  (main w s).1 = Ok tt →
  last (trace (main w s).2) = Some (EvPrint FINISHED).
Proof.
  unfold main, bind.
  repeat match goal with
    | |- context [match ?m ?s0 with _ => _ end] =>
        destruct (m s0) as [[?|?] ?]; simpl; try discriminate
    end.
  intros _. apply last_snoc.
Qed.

Example final_message_printed_on_success :
  (run world_mixed ∅ ∅).1 = Ok tt ∧
  last (console (trace (run world_mixed ∅ ∅).2)) = Some FINISHED.
Proof. split; vm_compute; reflexivity. Qed.

(** * Further properties of the stage functions *)

(** ** The inventory when the listing fails *)

(** X1. When the server-listing call fails, the inventory does not raise: it
    prints the error, yields [None], and allocates no dict. *)
Theorem X1_inventory_failure_yields_None (w : world) (s : state)
    (msg : string) :
  w_summary_list w (clock s) = Fault msg →
  (get_server_list w s).1 = Ok None ∧
  heap (get_server_list w s).2 = heap s ∧
  console (trace (get_server_list w s).2) = console (trace s) ++ [msg].
Proof.
  intros Hw. rewrite (get_server_list_Fault w s msg Hw). simpl.
  split; [reflexivity |]. split; [reflexivity |].
  unfold console. rewrite !omap_app. simpl. rewrite app_nil_r. reflexivity.
Qed.

Lemma X1_inventory_failure_witness :
  w_summary_list world_listing_fails 0 = Fault "listing failed" ∧
  (get_server_list world_listing_fails (initial ∅ ∅)).1 = Ok None ∧
  heap (get_server_list world_listing_fails (initial ∅ ∅)).2 = [] ∧
  console (trace (get_server_list world_listing_fails (initial ∅ ∅)).2)
    = [] ++ ["listing failed"].
Proof.
  split; [reflexivity |].
  apply (X1_inventory_failure_yields_None world_listing_fails (initial ∅ ∅)).
  reflexivity.
Defined.

(** ** Settings resolution *)

Lemma console_app tr1 tr2 : console (tr1 ++ tr2) = console tr1 ++ console tr2.
Proof. unfold console. apply omap_app. Qed.

Lemma deref_Some server s key v :
  deref server s !! key = Some v → heap s !! server = Some (deref server s).
Proof.
  unfold deref. destruct (heap s !! server) as [r|]; simpl; [reflexivity |].
  rewrite lookup_empty. discriminate.
Qed.

(** Lines 88-95, when the query answers with a non-empty list. *)
Lemma get_server_settings_Reply w server s m r rest :
  deref server s !! "moid" = Some m →
  w_setting_list w (clock s) (settings_filter m) = Reply (r :: rest) →
  get_server_settings w server s =
  (Ok tt,
   {| heap := alter (insert "setting_moid" r) server (heap s);
      trace := (trace s ++ [EvCall Fget_server_settings server (deref server s)])
               ++ [EvExt (get_compute_server_setting_list (settings_filter m))
                     true];
      dirs := dirs s; files := files s; clock := S (clock s) |}).
Proof.
  intros Hm Hw. unfold get_server_settings. rewrite bind_enter.
  unfold try_except.
  rewrite (bind_getitem_Some server "moid" m) by exact Hm. cbv zeta.
  fold (settings_filter m).
  rewrite (bind_external_Reply _ _ _ _ (r :: rest)) by exact Hw.
  reflexivity.
Qed.

Lemma get_server_settings_Fault w server s m msg :
  deref server s !! "moid" = Some m →
  w_setting_list w (clock s) (settings_filter m) = Fault msg →
  get_server_settings w server s =
  (Ok tt,
   {| heap := heap s;
      trace := ((trace s ++ [EvCall Fget_server_settings server (deref server s)])
                ++ [EvExt (get_compute_server_setting_list (settings_filter m))
                      false])
               ++ [EvPrint (settings_failure_line m msg)];
      dirs := dirs s; files := files s; clock := S (clock s) |}).
Proof.
  intros Hm Hw. unfold get_server_settings. rewrite bind_enter.
  unfold try_except.
  rewrite (bind_getitem_Some server "moid" m) by exact Hm. cbv zeta.
  fold (settings_filter m).
  rewrite (bind_external_Fault _ _ _ _ msg) by exact Hw.
  rewrite (bind_getitem_Some server "moid" m) by exact Hm.
  reflexivity.
Qed.

Lemma get_server_settings_empty w server s m :
  deref server s !! "moid" = Some m →
  w_setting_list w (clock s) (settings_filter m) = Reply [] →
  get_server_settings w server s =
  (Ok tt,
   {| heap := heap s;
      trace := ((trace s ++ [EvCall Fget_server_settings server (deref server s)])
                ++ [EvExt (get_compute_server_setting_list (settings_filter m))
                      true])
               ++ [EvPrint (settings_failure_line m (str_exn IndexError))];
      dirs := dirs s; files := files s; clock := S (clock s) |}).
Proof.
  intros Hm Hw. unfold get_server_settings. rewrite bind_enter.
  unfold try_except.
  rewrite (bind_getitem_Some server "moid" m) by exact Hm. cbv zeta.
  fold (settings_filter m).
  rewrite (bind_external_Reply _ _ _ _ []) by exact Hw.
  cbn [first bind raise].
  rewrite (bind_getitem_Some server "moid" m) by exact Hm.
  reflexivity.
Qed.

Lemma external_Reply {A} c (answer : nat -> reply A) s a :
  answer (clock s) = Reply a →
  external c answer s = (Ok a, after_call c true s).
Proof. intros H. unfold external, bind, tick. rewrite H. reflexivity. Qed.

Lemma external_Fault {A} c (answer : nat -> reply A) s msg :
  answer (clock s) = Fault msg →
  external c answer s = (Raise (ExternalError msg), after_call c false s).
Proof. intros H. unfold external, bind, tick. rewrite H. reflexivity. Qed.

Lemma calls_app tr1 tr2 : calls (tr1 ++ tr2) = calls tr1 ++ calls tr2.
Proof. unfold calls. apply omap_app. Qed.

(** X2. When the settings query answers with a non-empty list, the resolver
    returns, stores the first result under "setting_moid" in the server's dict
    (the other results are ignored, every other dict and key is untouched) and
    prints nothing. *)
Theorem X2_settings_resolver_takes_first_result (w : world) (server : nat)
    (s : state) (m r : string) (rest : list string) :
  deref server s !! "moid" = Some m →
  w_setting_list w (clock s) (settings_filter m) = Reply (r :: rest) →
  (get_server_settings w server s).1 = Ok tt ∧
  heap (get_server_settings w server s).2
    = alter (insert "setting_moid" r) server (heap s) ∧
  deref server (get_server_settings w server s).2
    = <[ "setting_moid" := r ]> (deref server s) ∧
  console (trace (get_server_settings w server s).2) = console (trace s).
Proof.
  intros Hm Hw. rewrite (get_server_settings_Reply w server s m r rest Hm Hw).
  simpl. split; [reflexivity |]. split; [reflexivity |]. split.
  - unfold deref at 1; simpl. rewrite list_lookup_alter_eq.
    rewrite (deref_Some server s "moid" m Hm). reflexivity.
  - rewrite !console_app. simpl. rewrite !app_nil_r. reflexivity.
Qed.

Lemma X2_settings_resolver_witness :
  deref 0 (listed "B") !! "moid" = Some "B" ∧
  w_setting_list world_two_results 0 (settings_filter "B")
    = Reply ["setting-1"; "setting-2"] ∧
  (get_server_settings world_two_results 0 (listed "B")).1 = Ok tt ∧
  heap (get_server_settings world_two_results 0 (listed "B")).2
    = alter (insert "setting_moid" "setting-1") 0 (heap (listed "B")) ∧
  deref 0 (get_server_settings world_two_results 0 (listed "B")).2
    = <[ "setting_moid" := "setting-1" ]> (deref 0 (listed "B")) ∧
  console (trace (get_server_settings world_two_results 0 (listed "B")).2)
    = console (trace (listed "B")).
Proof.
  split; [reflexivity |]. split; [reflexivity |].
  apply (X2_settings_resolver_takes_first_result world_two_results 0
           (listed "B") "B" "setting-1" ["setting-2"]); reflexivity.
Defined.

(** X3. When the settings query fails or answers with an empty list, the
    resolver still returns: the heap is unchanged (the dict stays without a
    settings identifier) and one line naming the server is printed. *)
Theorem X3_settings_failure_is_contained (w : world) (server : nat)
    (s : state) (m : string) :
  deref server s !! "moid" = Some m →
  (∃ msg, w_setting_list w (clock s) (settings_filter m) = Fault msg)
  ∨ w_setting_list w (clock s) (settings_filter m) = Reply [] →
  (get_server_settings w server s).1 = Ok tt ∧
  heap (get_server_settings w server s).2 = heap s ∧
  ∃ reason,
    console (trace (get_server_settings w server s).2)
    = console (trace s) ++ [settings_failure_line m reason].
Proof.
  intros Hm [[msg Hw] | Hw].
  - rewrite (get_server_settings_Fault w server s m msg Hm Hw). simpl.
    split; [reflexivity |]. split; [reflexivity |]. exists msg.
    rewrite !console_app. simpl. rewrite !app_nil_r. reflexivity.
  - rewrite (get_server_settings_empty w server s m Hm Hw). simpl.
    split; [reflexivity |]. split; [reflexivity |].
    exists (str_exn IndexError).
    rewrite !console_app. simpl. rewrite !app_nil_r. reflexivity.
Qed.

Lemma X3_settings_failure_witness :
  deref 0 (listed "B") !! "moid" = Some "B" ∧
  ((∃ msg, w_setting_list world_no_results 0 (settings_filter "B") = Fault msg)
   ∨ w_setting_list world_no_results 0 (settings_filter "B") = Reply []) ∧
  (get_server_settings world_no_results 0 (listed "B")).1 = Ok tt ∧
  heap (get_server_settings world_no_results 0 (listed "B")).2
    = heap (listed "B") ∧
  ∃ reason,
    console (trace (get_server_settings world_no_results 0 (listed "B")).2)
    = console (trace (listed "B")) ++ [settings_failure_line "B" reason].
Proof.
  split; [reflexivity |]. split; [right; reflexivity |].
  apply (X3_settings_failure_is_contained world_no_results 0 (listed "B") "B");
    [reflexivity | right; reflexivity].
Defined.

(** ** The collection trigger *)

(** X4. For a dict with a settings identifier, the trigger never raises and
    never changes the heap; it issues exactly one update, addressed to that
    identifier with the value "Collect", and prints a line only when the
    update fails. *)
Theorem X4_trigger_updates_resolved_setting (w : world) (server : nat)
    (s : state) (m sm : string) :
  deref server s !! "moid" = Some m →
  deref server s !! "setting_moid" = Some sm →
  (set_collect_sel w server s).1 = Ok tt ∧
  heap (set_collect_sel w server s).2 = heap s ∧
  calls (trace (set_collect_sel w server s).2)
    = calls (trace s) ++ [update_compute_server_setting sm "Collect"] ∧
  console (trace (set_collect_sel w server s).2)
    = console (trace s) ++
      match w_update_setting w (clock s) sm with
      | Reply _ => []
      | Fault msg => [trigger_failure_line m msg]
      end.
Proof.
  intros Hm Hsm. unfold set_collect_sel. rewrite bind_enter.
  rewrite (bind_getitem_Some server "setting_moid" sm) by exact Hsm.
  unfold try_except.
  destruct (w_update_setting w (clock s) sm) as [[]|msg] eqn:Hw.
  - rewrite (external_Reply (update_compute_server_setting sm "Collect")
               (fun n => w_update_setting w n sm)
               (log (EvCall Fset_collect_sel server (deref server s)) s).2
               tt Hw). simpl.
    rewrite !calls_app, !console_app. simpl. rewrite !app_nil_r.
    repeat split; reflexivity.
  - rewrite (external_Fault (update_compute_server_setting sm "Collect")
               (fun n => w_update_setting w n sm)
               (log (EvCall Fset_collect_sel server (deref server s)) s).2
               msg Hw).
    rewrite (bind_getitem_Some server "moid" m) by exact Hm. simpl.
    rewrite !calls_app, !console_app. simpl. rewrite !app_nil_r.
    repeat split; reflexivity.
Qed.

Lemma X4_trigger_witness :
  deref 0 (settled "B" "setting-1") !! "moid" = Some "B" ∧
  deref 0 (settled "B" "setting-1") !! "setting_moid" = Some "setting-1" ∧
  (set_collect_sel world_update_refused 0 (settled "B" "setting-1")).1 = Ok tt ∧
  heap (set_collect_sel world_update_refused 0 (settled "B" "setting-1")).2
    = heap (settled "B" "setting-1") ∧
  calls (trace (set_collect_sel world_update_refused 0
                  (settled "B" "setting-1")).2)
    = calls (trace (settled "B" "setting-1"))
      ++ [update_compute_server_setting "setting-1" "Collect"] ∧
  console (trace (set_collect_sel world_update_refused 0
                    (settled "B" "setting-1")).2)
    = console (trace (settled "B" "setting-1")) ++
      match w_update_setting world_update_refused
              (clock (settled "B" "setting-1")) "setting-1" with
      | Reply _ => []
      | Fault msg => [trigger_failure_line "B" msg]
      end.
Proof.
  split; [reflexivity |]. split; [reflexivity |].
  apply (X4_trigger_updates_resolved_setting world_update_refused 0
           (settled "B" "setting-1") "B" "setting-1"); reflexivity.
Defined.

(** X5. For a dict without a settings identifier, the trigger raises
    [KeyError] before anything else: no call is made, nothing is printed, the
    heap is unchanged. *)
Theorem X5_trigger_without_setting_raises (w : world) (server : nat)
    (s : state) :
  deref server s !! "setting_moid" = None →
  (set_collect_sel w server s).1 = Raise (KeyError "setting_moid") ∧
  heap (set_collect_sel w server s).2 = heap s ∧
  calls (trace (set_collect_sel w server s).2) = calls (trace s) ∧
  console (trace (set_collect_sel w server s).2) = console (trace s) ∧
  clock (set_collect_sel w server s).2 = clock s.
Proof.
  intros H. unfold set_collect_sel. rewrite bind_enter.
  rewrite bind_getitem_None by exact H. simpl.
  rewrite !calls_app, !console_app. simpl. rewrite !app_nil_r.
  repeat split; reflexivity.
Qed.

Lemma X5_trigger_without_setting_witness :
  deref 0 (listed "A") !! "setting_moid" = None ∧
  (set_collect_sel world_mixed 0 (listed "A")).1
    = Raise (KeyError "setting_moid") ∧
  heap (set_collect_sel world_mixed 0 (listed "A")).2 = heap (listed "A") ∧
  calls (trace (set_collect_sel world_mixed 0 (listed "A")).2)
    = calls (trace (listed "A")) ∧
  console (trace (set_collect_sel world_mixed 0 (listed "A")).2)
    = console (trace (listed "A")) ∧
  clock (set_collect_sel world_mixed 0 (listed "A")).2 = clock (listed "A").
Proof.
  split; [reflexivity |].
  apply (X5_trigger_without_setting_raises world_mixed 0 (listed "A")).
  reflexivity.
Defined.

(** ** Log resolution *)

Lemma get_endpoint_logs_Reply w server s m r rest :
  deref server s !! "moid" = Some m →
  w_end_point_log_list w (clock s) (logs_filter m) = Reply (r :: rest) →
  get_endpoint_logs w server s =
  (Ok tt,
   {| heap := alter (insert "endpoint_filename" (epl_file_name r)) server
                (alter (insert "endpoint_moid" (epl_moid r)) server (heap s));
      trace := (trace s ++ [EvCall Fget_endpoint_logs server (deref server s)])
               ++ [EvExt (get_equipment_end_point_log_list (logs_filter m))
                     true];
      dirs := dirs s; files := files s; clock := S (clock s) |}).
Proof.
  intros Hm Hw. unfold get_endpoint_logs. rewrite bind_enter.
  unfold try_except.
  rewrite (bind_getitem_Some server "moid" m) by exact Hm. cbv zeta.
  fold (logs_filter m).
  rewrite (bind_external_Reply _ _ _ _ (r :: rest)) by exact Hw.
  reflexivity.
Qed.

Lemma get_endpoint_logs_Fault w server s m msg :
  deref server s !! "moid" = Some m →
  w_end_point_log_list w (clock s) (logs_filter m) = Fault msg →
  get_endpoint_logs w server s =
  (Ok tt,
   {| heap := heap s;
      trace := ((trace s ++ [EvCall Fget_endpoint_logs server (deref server s)])
                ++ [EvExt (get_equipment_end_point_log_list (logs_filter m))
                      false])
               ++ [EvPrint (logs_failure_line m msg)];
      dirs := dirs s; files := files s; clock := S (clock s) |}).
Proof.
  intros Hm Hw. unfold get_endpoint_logs. rewrite bind_enter.
  unfold try_except.
  rewrite (bind_getitem_Some server "moid" m) by exact Hm. cbv zeta.
  fold (logs_filter m).
  rewrite (bind_external_Fault _ _ _ _ msg) by exact Hw.
  rewrite (bind_getitem_Some server "moid" m) by exact Hm.
  reflexivity.
Qed.

Lemma get_endpoint_logs_empty w server s m :
  deref server s !! "moid" = Some m →
  w_end_point_log_list w (clock s) (logs_filter m) = Reply [] →
  get_endpoint_logs w server s =
  (Ok tt,
   {| heap := heap s;
      trace := ((trace s ++ [EvCall Fget_endpoint_logs server (deref server s)])
                ++ [EvExt (get_equipment_end_point_log_list (logs_filter m))
                      true])
               ++ [EvPrint (logs_failure_line m (str_exn IndexError))];
      dirs := dirs s; files := files s; clock := S (clock s) |}).
Proof.
  intros Hm Hw. unfold get_endpoint_logs. rewrite bind_enter.
  unfold try_except.
  rewrite (bind_getitem_Some server "moid" m) by exact Hm. cbv zeta.
  fold (logs_filter m).
  rewrite (bind_external_Reply _ _ _ _ []) by exact Hw.
  cbn [first bind raise].
  rewrite (bind_getitem_Some server "moid" m) by exact Hm.
  reflexivity.
Qed.

(** X6. When the log query answers with a non-empty list, the resolver
    returns and stores the identifier and the file name of the first result
    under "endpoint_moid" and "endpoint_filename"; the other results are
    ignored, every other key and dict is untouched, nothing is printed. *)
Theorem X6_log_resolver_takes_first_result (w : world) (server : nat)
    (s : state) (m : string) (r : end_point_log) (rest : list end_point_log) :
  deref server s !! "moid" = Some m →
  w_end_point_log_list w (clock s) (logs_filter m) = Reply (r :: rest) →
  (get_endpoint_logs w server s).1 = Ok tt ∧
  deref server (get_endpoint_logs w server s).2
    = <[ "endpoint_filename" := epl_file_name r ]>
        (<[ "endpoint_moid" := epl_moid r ]> (deref server s)) ∧
  heap (get_endpoint_logs w server s).2
    = alter (insert "endpoint_filename" (epl_file_name r)) server
        (alter (insert "endpoint_moid" (epl_moid r)) server (heap s)) ∧
  console (trace (get_endpoint_logs w server s).2) = console (trace s).
Proof.
  intros Hm Hw. rewrite (get_endpoint_logs_Reply w server s m r rest Hm Hw).
  simpl. split; [reflexivity |]. split; [| split; [reflexivity |]].
  - unfold deref at 1; simpl. rewrite !list_lookup_alter_eq.
    rewrite (deref_Some server s "moid" m Hm). reflexivity.
  - rewrite !console_app. simpl. rewrite !app_nil_r. reflexivity.
Qed.

Lemma X6_log_resolver_witness :
  deref 0 (listed "B") !! "moid" = Some "B" ∧
  w_end_point_log_list world_two_results 0 (logs_filter "B")
    = Reply [ {| epl_moid := "X"; epl_file_name := "sel.txt" |};
              {| epl_moid := "Y"; epl_file_name := "other.txt" |} ] ∧
  (get_endpoint_logs world_two_results 0 (listed "B")).1 = Ok tt ∧
  deref 0 (get_endpoint_logs world_two_results 0 (listed "B")).2
    = <[ "endpoint_filename" := "sel.txt" ]>
        (<[ "endpoint_moid" := "X" ]> (deref 0 (listed "B"))) ∧
  heap (get_endpoint_logs world_two_results 0 (listed "B")).2
    = alter (insert "endpoint_filename" "sel.txt") 0
        (alter (insert "endpoint_moid" "X") 0 (heap (listed "B"))) ∧
  console (trace (get_endpoint_logs world_two_results 0 (listed "B")).2)
    = console (trace (listed "B")).
Proof.
  split; [reflexivity |]. split; [reflexivity |].
  apply (X6_log_resolver_takes_first_result world_two_results 0 (listed "B")
           "B" {| epl_moid := "X"; epl_file_name := "sel.txt" |}
           [ {| epl_moid := "Y"; epl_file_name := "other.txt" |} ]);
    reflexivity.
Defined.

(** X7. When the log query fails or answers with an empty list, the
    resolver still returns: the heap is unchanged (neither log field is set)
    and one line naming the server is printed. *)
Theorem X7_log_failure_is_contained (w : world) (server : nat)
    (s : state) (m : string) :
  deref server s !! "moid" = Some m →
  (∃ msg, w_end_point_log_list w (clock s) (logs_filter m) = Fault msg)
  ∨ w_end_point_log_list w (clock s) (logs_filter m) = Reply [] →
  (get_endpoint_logs w server s).1 = Ok tt ∧
  heap (get_endpoint_logs w server s).2 = heap s ∧
  ∃ reason,
    console (trace (get_endpoint_logs w server s).2)
    = console (trace s) ++ [logs_failure_line m reason].
Proof.
  intros Hm [[msg Hw] | Hw].
  - rewrite (get_endpoint_logs_Fault w server s m msg Hm Hw). simpl.
    split; [reflexivity |]. split; [reflexivity |]. exists msg.
    rewrite !console_app. simpl. rewrite !app_nil_r. reflexivity.
  - rewrite (get_endpoint_logs_empty w server s m Hm Hw). simpl.
    split; [reflexivity |]. split; [reflexivity |].
    exists (str_exn IndexError).
    rewrite !console_app. simpl. rewrite !app_nil_r. reflexivity.
Qed.

Lemma X7_log_failure_witness :
  deref 0 (listed "B") !! "moid" = Some "B" ∧
  ((∃ msg, w_end_point_log_list world_no_results 0 (logs_filter "B")
           = Fault msg)
   ∨ w_end_point_log_list world_no_results 0 (logs_filter "B") = Reply []) ∧
  (get_endpoint_logs world_no_results 0 (listed "B")).1 = Ok tt ∧
  heap (get_endpoint_logs world_no_results 0 (listed "B")).2
    = heap (listed "B") ∧
  ∃ reason,
    console (trace (get_endpoint_logs world_no_results 0 (listed "B")).2)
    = console (trace (listed "B")) ++ [logs_failure_line "B" reason].
Proof.
  split; [reflexivity |]. split; [right; reflexivity |].
  apply (X7_log_failure_is_contained world_no_results 0 (listed "B") "B");
    [reflexivity | right; reflexivity].
Defined.

(** ** The downloader when something fails *)

(** A [try] whose handler only prints always returns. *)
Lemma try_except_print_returns (body : M unit) (line : exn -> string) s :
  (try_except body (fun e => print (line e)) s).1 = Ok tt.
Proof.
  unfold try_except. destruct (body s) as [[[]|e] s']; reflexivity.
Qed.

Lemma try_except_print_twice (body : M unit) (l1 l2 : exn -> string) s :
  try_except (try_except body (fun e => print (l1 e)))
             (fun e => print (l2 e)) s
  = try_except body (fun e => print (l1 e)) s.
Proof.
  unfold try_except. destruct (body s) as [[[]|e] s']; reflexivity.
Qed.

(** Lines 164-175, for a dict with both log fields and a signer that can be
    built. *)
Lemma download_sel_after_auth w server s X F :
  deref server s !! "endpoint_moid" = Some X →
  deref server s !! "endpoint_filename" = Some F →
  w_auth w (clock s) = Reply tt →
  download_sel w server s =
  try_except
    (do response <-
        external (requests_get (request_url w X))
                 (fun n => w_get w n (request_url w X));
     try_except
       (ensure_folder w >> save w (os_path_join (folder_path w) F) F response)
       (fun e => print (save_failure_line (str_exn e))))
    (fun e => print (str_exn e)) (before_get server s).
Proof.
  intros Hm Hf Hauth. unfold download_sel. rewrite bind_enter.
  rewrite (bind_getitem_Some server "endpoint_moid" X) by exact Hm.
  rewrite (bind_getitem_Some server "endpoint_filename" F) by exact Hf.
  rewrite (bind_external_Reply _ _ _ _ tt) by exact Hauth.
  reflexivity.
Qed.

(** Lines 175-189, when the body has arrived. *)
Lemma download_sel_after_get w server s X F body :
  deref server s !! "endpoint_moid" = Some X →
  deref server s !! "endpoint_filename" = Some F →
  w_auth w (clock s) = Reply tt →
  w_get w (S (clock s)) (request_url w X) = Reply body →
  download_sel w server s =
  try_except
    (ensure_folder w >> save w (os_path_join (folder_path w) F) F body)
    (fun e => print (save_failure_line (str_exn e))) (before_save w server X s).
Proof.
  intros Hm Hf Hauth Hget.
  rewrite (download_sel_after_auth w server s X F Hm Hf Hauth).
  unfold try_except at 1.
  rewrite (bind_external_Reply _ _ _ _ body) by exact Hget.
  fold (before_save w server X s).
  unfold try_except.
  destruct ((ensure_folder w >> _) (before_save w server X s))
    as [[[]|e] s']; reflexivity.
Qed.

(** X8. For a dict with both log fields, once the request signer is built
    the downloader always returns: whatever the download host and the file
    system do is caught. *)
Theorem X8_downloader_contains_failures (w : world) (server : nat)
    (s : state) (X F : string) :
  deref server s !! "endpoint_moid" = Some X →
  deref server s !! "endpoint_filename" = Some F →
  w_auth w (clock s) = Reply tt →
  (download_sel w server s).1 = Ok tt.
Proof.
  intros Hm Hf Hauth.
  rewrite (download_sel_after_auth w server s X F Hm Hf Hauth).
  apply try_except_print_returns.
Qed.

Lemma X8_downloader_witness :
  deref 0 (resolved "X" "sel.txt") !! "endpoint_moid" = Some "X" ∧
  deref 0 (resolved "X" "sel.txt") !! "endpoint_filename" = Some "sel.txt" ∧
  w_auth world_open_fails (clock (resolved "X" "sel.txt")) = Reply tt ∧
  (download_sel world_open_fails 0 (resolved "X" "sel.txt")).1 = Ok tt.
Proof.
  split; [reflexivity |]. split; [reflexivity |]. split; [reflexivity |].
  apply (X8_downloader_contains_failures world_open_fails 0
           (resolved "X" "sel.txt") "X" "sel.txt"); reflexivity.
Defined.

Lemma download_sel_get_Fault w server s X F msg :
  deref server s !! "endpoint_moid" = Some X →
  deref server s !! "endpoint_filename" = Some F →
  w_auth w (clock s) = Reply tt →
  w_get w (S (clock s)) (request_url w X) = Fault msg →
  download_sel w server s =
  print msg (after_call (requests_get (request_url w X)) false
               (before_get server s)).
Proof.
  intros Hm Hf Hauth Hget.
  rewrite (download_sel_after_auth w server s X F Hm Hf Hauth).
  unfold try_except at 1.
  rewrite (bind_external_Fault _ _ _ _ msg) by exact Hget. reflexivity.
Qed.

(** X9. When the HTTP request fails, the downloader prints the error and
    returns without touching the file system: no folder is created, no file
    is opened. *)
Theorem X9_failed_request_leaves_no_trace_on_disk (w : world) (server : nat)
    (s : state) (X F msg : string) :
  deref server s !! "endpoint_moid" = Some X →
  deref server s !! "endpoint_filename" = Some F →
  w_auth w (clock s) = Reply tt →
  w_get w (S (clock s)) (request_url w X) = Fault msg →
  (download_sel w server s).1 = Ok tt ∧
  dirs (download_sel w server s).2 = dirs s ∧
  files (download_sel w server s).2 = files s ∧
  calls (trace (download_sel w server s).2)
    = calls (trace s) ++ [IntersightAuth; requests_get (request_url w X)] ∧
  console (trace (download_sel w server s).2) = console (trace s) ++ [msg].
Proof.
  intros Hm Hf Hauth Hget.
  rewrite (download_sel_get_Fault w server s X F msg Hm Hf Hauth Hget).
  cbn -[calls console].
  rewrite !calls_app, !console_app. simpl. rewrite !app_nil_r, <- !app_assoc.
  repeat split; reflexivity.
Qed.

Lemma X9_failed_request_witness :
  deref 0 (resolved "X" "sel.txt") !! "endpoint_moid" = Some "X" ∧
  deref 0 (resolved "X" "sel.txt") !! "endpoint_filename" = Some "sel.txt" ∧
  w_auth world_get_fails (clock (resolved "X" "sel.txt")) = Reply tt ∧
  w_get world_get_fails (S (clock (resolved "X" "sel.txt")))
    (request_url world_get_fails "X") = Fault "404 Not Found" ∧
  (download_sel world_get_fails 0 (resolved "X" "sel.txt")).1 = Ok tt ∧
  dirs (download_sel world_get_fails 0 (resolved "X" "sel.txt")).2
    = dirs (resolved "X" "sel.txt") ∧
  files (download_sel world_get_fails 0 (resolved "X" "sel.txt")).2
    = files (resolved "X" "sel.txt") ∧
  calls (trace (download_sel world_get_fails 0 (resolved "X" "sel.txt")).2)
    = calls (trace (resolved "X" "sel.txt"))
      ++ [IntersightAuth; requests_get (request_url world_get_fails "X")] ∧
  console (trace (download_sel world_get_fails 0 (resolved "X" "sel.txt")).2)
    = console (trace (resolved "X" "sel.txt")) ++ ["404 Not Found"].
Proof.
  split; [reflexivity |]. split; [reflexivity |]. split; [reflexivity |].
  split; [reflexivity |].
  apply (X9_failed_request_leaves_no_trace_on_disk world_get_fails 0
           (resolved "X" "sel.txt") "X" "sel.txt" "404 Not Found");
    reflexivity.
Defined.

Lemma ensure_folder_Fault w s msg :
  path_exists (folder_path w) s = false →
  w_makedirs w (clock s) (folder_path w) = Fault msg →
  ensure_folder w s =
  (Raise (ExternalError msg), after_call (os_makedirs (folder_path w)) false s).
Proof.
  intros Hp Hmk. unfold ensure_folder, bind, os_path_exists. rewrite Hp.
  cbn [negb]. unfold makedirs, bind, os_path_exists. rewrite Hp.
  rewrite (external_Fault _ _ s msg Hmk). reflexivity.
Qed.

Lemma download_sel_makedirs_Fault w server s X F body msg :
  deref server s !! "endpoint_moid" = Some X →
  deref server s !! "endpoint_filename" = Some F →
  w_auth w (clock s) = Reply tt →
  w_get w (S (clock s)) (request_url w X) = Reply body →
  path_exists (folder_path w) s = false →
  w_makedirs w (S (S (clock s))) (folder_path w) = Fault msg →
  download_sel w server s =
  print (save_failure_line msg)
    (after_call (os_makedirs (folder_path w)) false (before_save w server X s)).
Proof.
  intros Hm Hf Hauth Hget Hp Hmk.
  rewrite (download_sel_after_get w server s X F body Hm Hf Hauth Hget).
  unfold try_except, bind.
  rewrite (ensure_folder_Fault w (before_save w server X s) msg Hp Hmk).
  reflexivity.
Qed.

(** X10. When the output folder is absent and cannot be created, the
    downloader prints the reason and returns; it does not try to open the
    file, and the file system is unchanged. *)
Theorem X10_folder_failure_stops_the_save (w : world) (server : nat)
    (s : state) (X F msg : string) (body : list byte) :
  deref server s !! "endpoint_moid" = Some X →
  deref server s !! "endpoint_filename" = Some F →
  w_auth w (clock s) = Reply tt →
  w_get w (S (clock s)) (request_url w X) = Reply body →
  path_exists (folder_path w) s = false →
  w_makedirs w (S (S (clock s))) (folder_path w) = Fault msg →
  (download_sel w server s).1 = Ok tt ∧
  dirs (download_sel w server s).2 = dirs s ∧
  files (download_sel w server s).2 = files s ∧
  calls (trace (download_sel w server s).2)
    = calls (trace s) ++ [IntersightAuth; requests_get (request_url w X);
                          os_makedirs (folder_path w)] ∧
  console (trace (download_sel w server s).2)
    = console (trace s) ++ [save_failure_line msg].
Proof.
  intros Hm Hf Hauth Hget Hp Hmk.
  rewrite (download_sel_makedirs_Fault w server s X F body msg
             Hm Hf Hauth Hget Hp Hmk).
  cbn -[calls console].
  rewrite !calls_app, !console_app. simpl. rewrite !app_nil_r, <- !app_assoc.
  repeat split; reflexivity.
Qed.

Lemma X10_folder_failure_witness :
  deref 0 (resolved "X" "sel.txt") !! "endpoint_moid" = Some "X" ∧
  deref 0 (resolved "X" "sel.txt") !! "endpoint_filename" = Some "sel.txt" ∧
  w_auth world_makedirs_fails (clock (resolved "X" "sel.txt")) = Reply tt ∧
  w_get world_makedirs_fails (S (clock (resolved "X" "sel.txt")))
    (request_url world_makedirs_fails "X") = Reply body_hi ∧
  path_exists (folder_path world_makedirs_fails) (resolved "X" "sel.txt")
    = false ∧
  w_makedirs world_makedirs_fails (S (S (clock (resolved "X" "sel.txt"))))
    (folder_path world_makedirs_fails) = Fault "Permission denied" ∧
  (download_sel world_makedirs_fails 0 (resolved "X" "sel.txt")).1 = Ok tt ∧
  dirs (download_sel world_makedirs_fails 0 (resolved "X" "sel.txt")).2
    = dirs (resolved "X" "sel.txt") ∧
  files (download_sel world_makedirs_fails 0 (resolved "X" "sel.txt")).2
    = files (resolved "X" "sel.txt") ∧
  calls (trace (download_sel world_makedirs_fails 0
                  (resolved "X" "sel.txt")).2)
    = calls (trace (resolved "X" "sel.txt"))
      ++ [IntersightAuth; requests_get (request_url world_makedirs_fails "X");
          os_makedirs (folder_path world_makedirs_fails)] ∧
  console (trace (download_sel world_makedirs_fails 0
                    (resolved "X" "sel.txt")).2)
    = console (trace (resolved "X" "sel.txt"))
      ++ [save_failure_line "Permission denied"].
Proof.
  split; [reflexivity |]. split; [reflexivity |]. split; [reflexivity |].
  split; [reflexivity |]. split; [vm_compute; reflexivity |].
  split; [reflexivity |].
  apply (X10_folder_failure_stops_the_save world_makedirs_fails 0
           (resolved "X" "sel.txt") "X" "sel.txt" "Permission denied" body_hi);
    first [reflexivity | vm_compute; reflexivity].
Defined.

Lemma ensure_folder_Reply w s :
  path_exists (folder_path w) s = false →
  w_makedirs w (clock s) (folder_path w) = Reply tt →
  ensure_folder w s =
  (Ok tt,
   {| heap := heap s;
      trace := (trace s ++ [EvExt (os_makedirs (folder_path w)) true])
               ++ [EvPrint (FOLDER_CREATED folder_name)];
      dirs := {[ folder_path w ]} ∪ dirs s;
      files := files s;
      clock := S (clock s) |}).
Proof.
  intros Hp Hmk. unfold ensure_folder, bind, os_path_exists. rewrite Hp.
  cbn [negb]. unfold makedirs, bind, os_path_exists. rewrite Hp.
  rewrite (external_Reply _ _ s tt Hmk). reflexivity.
Qed.

Lemma save_open_Fault w path filename content s msg :
  w_open w (clock s) path = Fault msg →
  save w path filename content s =
  (Raise (ExternalError msg), after_call (open_w path) false s).
Proof.
  intros Ho. unfold save, open_write, bind.
  rewrite (external_Fault _ _ s msg Ho). reflexivity.
Qed.

(** X11. When the file cannot be opened, the downloader prints the reason
    and returns; the output folder is there (created on the way if it was
    absent) but no file is created or changed. *)
Theorem X11_open_failure_writes_nothing (w : world) (server : nat)
    (s : state) (X F msg : string) (body : list byte) :
  deref server s !! "endpoint_moid" = Some X →
  deref server s !! "endpoint_filename" = Some F →
  w_auth w (clock s) = Reply tt →
  w_get w (S (clock s)) (request_url w X) = Reply body →
  (∀ n, w_makedirs w n (folder_path w) = Reply tt) →
  (∀ n, w_open w n (os_path_join (folder_path w) F) = Fault msg) →
  (download_sel w server s).1 = Ok tt ∧
  files (download_sel w server s).2 = files s ∧
  path_exists (folder_path w) (download_sel w server s).2 = true ∧
  console (trace (download_sel w server s).2)
    = console (trace s)
      ++ (if path_exists (folder_path w) s then []
          else [FOLDER_CREATED folder_name])
      ++ [save_failure_line msg].
Proof.
  intros Hm Hf Hauth Hget Hmk Ho.
  rewrite (download_sel_after_get w server s X F body Hm Hf Hauth Hget).
  unfold try_except, bind.
  destruct (path_exists (folder_path w) s) eqn:Hp.
  - rewrite (ensure_folder_present w (before_save w server X s) Hp).
    rewrite (save_open_Fault w _ F body _ msg (Ho _)).
    cbn -[console path_exists].
    split; [reflexivity |]. split; [reflexivity |]. split; [exact Hp |].
    rewrite !console_app. simpl. rewrite !app_nil_r. reflexivity.
  - rewrite (ensure_folder_Reply w (before_save w server X s) Hp (Hmk _)).
    rewrite (save_open_Fault w _ F body _ msg (Ho _)).
    cbn -[console path_exists].
    split; [reflexivity |]. split; [reflexivity |]. split.
    + unfold path_exists; simpl. apply orb_true_iff; left.
      apply bool_decide_eq_true. set_solver.
    + rewrite !console_app. simpl. rewrite !app_nil_r, <- !app_assoc.
      reflexivity.
Qed.

Lemma X11_open_failure_witness :
  deref 0 (resolved "X" "sel.txt") !! "endpoint_moid" = Some "X" ∧
  deref 0 (resolved "X" "sel.txt") !! "endpoint_filename" = Some "sel.txt" ∧
  w_auth world_open_fails (clock (resolved "X" "sel.txt")) = Reply tt ∧
  w_get world_open_fails (S (clock (resolved "X" "sel.txt")))
    (request_url world_open_fails "X") = Reply body_hi ∧
  (download_sel world_open_fails 0 (resolved "X" "sel.txt")).1 = Ok tt ∧
  files (download_sel world_open_fails 0 (resolved "X" "sel.txt")).2
    = files (resolved "X" "sel.txt") ∧
  path_exists (folder_path world_open_fails)
    (download_sel world_open_fails 0 (resolved "X" "sel.txt")).2 = true ∧
  console (trace (download_sel world_open_fails 0 (resolved "X" "sel.txt")).2)
    = console (trace (resolved "X" "sel.txt"))
      ++ (if path_exists (folder_path world_open_fails)
               (resolved "X" "sel.txt")
          then [] else [FOLDER_CREATED folder_name])
      ++ [save_failure_line "Permission denied"].
Proof.
  split; [reflexivity |]. split; [reflexivity |]. split; [reflexivity |].
  split; [reflexivity |].
  apply (X11_open_failure_writes_nothing world_open_fails 0
           (resolved "X" "sel.txt") "X" "sel.txt" "Permission denied" body_hi);
    intros; reflexivity.
Defined.

(** ** What each phase leaves alone *)

Ltac same_leaf :=
  intros; first [exact Logic.I | simpl; assumption].

(** X12. The downloader and the whole download phase never change the heap:
    for every world, the dicts after the phase are the dicts before it. *)
Theorem X12_download_phase_keeps_the_heap (w : world)
    (l : option (list nat)) (s : state) :
  heap (download_phase w l s).2 = heap s.
Proof.
  assert (inv (fun s' => heap s' = heap s) (fun _ => True) (download_phase w l))
    as Hinv.
  { unfold download_phase, for_in, download_sel, ensure_folder, makedirs, save,
      open_write, write.
    destruct l as [l|]; [| apply inv_raise, Logic.I].
    inv_struct; same_leaf. }
  apply Hinv. reflexivity.
Qed.

(** X13. The inventory and the whole trigger phase never touch the file
    system: for every world, folders and files are the same after them. *)
Theorem X13_trigger_phase_keeps_the_file_system (w : world)
    (l : option (list nat)) (s : state) :
  dirs (get_server_list w s).2 = dirs s ∧
  files (get_server_list w s).2 = files s ∧
  dirs (trigger_phase w l s).2 = dirs s ∧
  files (trigger_phase w l s).2 = files s.
Proof.
  pose (I := fun s' => dirs s' = dirs s ∧ files s' = files s).
  assert (∀ servers acc, inv I (fun _ => True)
                           (get_server_list_loop servers acc)) as Hloop.
  { induction servers as [|sv servers IH]; intros acc; simpl.
    - apply inv_ret.
    - destruct (bool_decide _); [| apply IH].
      apply inv_bind; [| intros d; apply IH]. inv_leaf. same_leaf. }
  assert (inv I (fun _ => True) (get_server_list w)) as Hlist.
  { unfold get_server_list. inv_struct; try apply Hloop; same_leaf. }
  assert (inv I (fun _ => True) (trigger_phase w l)) as Htrig.
  { unfold trigger_phase, for_in, get_server_settings, set_collect_sel,
      get_endpoint_logs.
    destruct l as [l|]; [| apply inv_raise, Logic.I].
    inv_struct; try inv_leaf; same_leaf. }
  destruct (Hlist s) as [[H1 H2] _]; [split; reflexivity |].
  destruct (Htrig s) as [[H3 H4] _]; [split; reflexivity |].
  repeat split; assumption.
Qed.

(** * Further properties of whole runs *)

Lemma run_Reply w d f servers :
  w_summary_list w 0 = Reply servers →
  run w d f =
  phases w (Some (seq 0 (length (non_legacy servers))))
    {| heap := record_of <$> non_legacy servers;
       trace := [EvPrint WARNING;
                 EvExt get_compute_physical_summary_list true];
       dirs := d; files := f; clock := 1 |}.
Proof.
  intros Hw. unfold run, main.
  rewrite (bind_Ok (print WARNING) _ (initial d f) tt
             (log (EvPrint WARNING) (initial d f)).2) by reflexivity.
  rewrite (bind_Ok _ _ _ _ _
             (get_server_list_Reply w (log (EvPrint WARNING) (initial d f)).2
                servers Hw)).
  reflexivity.
Qed.

Lemma non_legacy_all_legacy servers :
  Forall (fun sv => ps_management_mode sv = "UCSM") servers →
  non_legacy servers = [].
Proof.
  induction 1 as [|sv servers Hsv _ IH]; [reflexivity |].
  rewrite non_legacy_cons, IH.
  rewrite bool_decide_eq_false_2; [reflexivity |].
  intros Hnin. apply Hnin. rewrite Hsv. left.
Qed.

(** X14. When every listed server is managed in the legacy mode (or the
    list is empty), the run returns after the delay without any further
    call: nothing is resolved, triggered or downloaded, and the file system
    is unchanged. *)
Theorem X14_run_over_an_empty_inventory (w : world) (d : gset string)
    (f : gmap string text) (servers : list physical_summary) :
  w_summary_list w 0 = Reply servers →
  Forall (fun sv => ps_management_mode sv = "UCSM") servers →
  (run w d f).1 = Ok tt ∧
  trace (run w d f).2
    = [EvPrint WARNING; EvExt get_compute_physical_summary_list true;
       EvPrint WAITING; EvSleep 5; EvPrint FINISHED] ∧
  heap (run w d f).2 = [] ∧
  dirs (run w d f).2 = d ∧
  files (run w d f).2 = f.
Proof.
  intros Hw Hall. rewrite (run_Reply w d f servers Hw).
  rewrite (non_legacy_all_legacy servers Hall).
  repeat split; reflexivity.
Qed.

Lemma X14_empty_inventory_witness :
  w_summary_list world_legacy_only 0 = Reply [server_U; server_U] ∧
  Forall (fun sv => ps_management_mode sv = "UCSM") [server_U; server_U] ∧
  (run world_legacy_only ∅ ∅).1 = Ok tt ∧
  trace (run world_legacy_only ∅ ∅).2
    = [EvPrint WARNING; EvExt get_compute_physical_summary_list true;
       EvPrint WAITING; EvSleep 5; EvPrint FINISHED] ∧
  heap (run world_legacy_only ∅ ∅).2 = [] ∧
  dirs (run world_legacy_only ∅ ∅).2 = ∅ ∧
  files (run world_legacy_only ∅ ∅).2 = ∅.
Proof.
  split; [reflexivity |]. split; [repeat constructor |].
  apply (X14_run_over_an_empty_inventory world_legacy_only ∅ ∅
           [server_U; server_U]); [reflexivity | repeat constructor].
Defined.

(** ** The dicts of the inventory through a run *)

Lemma moids_alter_other key v server h :
  key ≠ "moid" → moids (alter (insert key v) server h) = moids h.
Proof.
  intros Hne. unfold moids. apply list_eq; intros j.
  rewrite !list_lookup_fmap.
  destruct (decide (server = j)) as [->|Hj].
  - rewrite list_lookup_alter_eq. destruct (h !! j) as [r|]; simpl; [| reflexivity].
    rewrite lookup_insert_ne by exact Hne.
    reflexivity.
  - rewrite list_lookup_alter_ne by exact Hj. reflexivity.
Qed.

Lemma inventory_inv_settings ms h server v :
  inventory_inv ms h →
  inventory_inv ms (alter (insert "setting_moid" v) server h).
Proof.
  intros [Hm Ht]; split.
  - rewrite moids_alter_other by discriminate. exact Hm.
  - apply heap_together_settings, Ht.
Qed.

Lemma inventory_inv_logs ms h server v1 v2 :
  inventory_inv ms h →
  inventory_inv ms (alter (insert "endpoint_filename" v2) server
                      (alter (insert "endpoint_moid" v1) server h)).
Proof.
  intros [Hm Ht]; split.
  - rewrite !moids_alter_other by discriminate. exact Hm.
  - apply heap_together_logs, Ht.
Qed.

Lemma inventory_inv_initial servers :
  inventory_inv (ps_moid <$> non_legacy servers)
    (record_of <$> non_legacy servers).
Proof.
  split.
  - unfold moids. rewrite <- !list_fmap_compose.
    apply list_fmap_ext. intros i sv _. simpl. unfold record_of.
    apply lookup_singleton_eq.
  - apply Forall_fmap, Forall_forall. intros sv _. reflexivity.
Qed.

Lemma inventory_inv_moid ms s server :
  inventory_inv ms (heap s) → server < length ms →
  ∃ m, deref server s !! "moid" = Some m.
Proof.
  intros [Hm _] Hlt.
  destruct (lookup_lt_is_Some_2 ms server Hlt) as [m Hms].
  exists m. unfold deref.
  assert (moids (heap s) !! server = Some (Some m)) as Hl.
  { rewrite Hm, list_lookup_fmap, Hms. reflexivity. }
  unfold moids in Hl. rewrite list_lookup_fmap in Hl.
  destruct (heap s !! server) as [r|]; simpl in *; [| discriminate].
  injection Hl as Hl. exact Hl.
Qed.

Lemma inventory_inv_filename ms s server X :
  inventory_inv ms (heap s) →
  deref server s !! "endpoint_moid" = Some X →
  ∃ F, deref server s !! "endpoint_filename" = Some F.
Proof.
  intros [_ Ht] HX.
  pose proof (together_deref (heap s) server Ht) as Htog.
  fold (deref server s) in Htog. unfold log_fields_together, has_key in Htog.
  rewrite HX in Htog.
  rewrite bool_decide_eq_true_2 in Htog by (eexists; reflexivity).
  destruct (deref server s !! "endpoint_filename") as [F|]; [eauto |].
  rewrite bool_decide_eq_false_2 in Htog; [discriminate |].
  intros [? ?]; discriminate.
Qed.

(** The stage functions keep the inventory invariant. *)
Section InventoryInvariant.
Variable w : world.
Variable ms : list string.

Let I : state -> Prop := fun s => inventory_inv ms (heap s).

Lemma I_run_inv s : I s → run_inv (inventory_inv ms) (trace s) (fun _ => true) s.
Proof. intros Hs; split; [exact Hs | apply tr_inv_start]. Qed.

Lemma inventory_inv_get_server_settings server s :
  I s → I (get_server_settings w server s).2.
Proof.
  intros Hs.
  apply (run_inv_get_server_settings w (inventory_inv ms) (trace s)
           (fun _ => true) (fun _ => True)); try (intros; reflexivity);
    try (intros; exact Logic.I).
  - apply inventory_inv_settings.
  - apply I_run_inv, Hs.
Qed.

Lemma inventory_inv_set_collect_sel server s :
  I s → I (set_collect_sel w server s).2.
Proof.
  intros Hs.
  apply (run_inv_set_collect_sel w (inventory_inv ms) (trace s)
           (fun _ => true) (fun _ => True)); try (intros; reflexivity);
    try (intros; exact Logic.I).
  apply I_run_inv, Hs.
Qed.

Lemma inventory_inv_get_endpoint_logs server s :
  I s → I (get_endpoint_logs w server s).2.
Proof.
  intros Hs.
  apply (run_inv_get_endpoint_logs w (inventory_inv ms) (trace s)
           (fun _ => true) (fun _ => True)); try (intros; reflexivity);
    try (intros; exact Logic.I).
  - apply inventory_inv_logs.
  - apply I_run_inv, Hs.
Qed.
End InventoryInvariant.

(** ** How the stages and a run may end *)

Lemma get_server_settings_returns w server s m :
  deref server s !! "moid" = Some m →
  (get_server_settings w server s).1 = Ok tt.
Proof.
  intros Hm.
  destruct (w_setting_list w (clock s) (settings_filter m))
    as [[|r rest]|msg] eqn:Hw.
  - rewrite (get_server_settings_empty w server s m Hm Hw). reflexivity.
  - rewrite (get_server_settings_Reply w server s m r rest Hm Hw). reflexivity.
  - rewrite (get_server_settings_Fault w server s m msg Hm Hw). reflexivity.
Qed.

Lemma get_server_settings_resolves w server s m r rest :
  deref server s !! "moid" = Some m →
  w_setting_list w (clock s) (settings_filter m) = Reply (r :: rest) →
  deref server (get_server_settings w server s).2 !! "setting_moid" = Some r.
Proof.
  intros Hm Hw. rewrite (get_server_settings_Reply w server s m r rest Hm Hw).
  unfold deref; simpl. rewrite list_lookup_alter_eq.
  rewrite (deref_Some server s "moid" m Hm). simpl. apply lookup_insert_eq.
Qed.

Lemma get_endpoint_logs_returns w server s m :
  deref server s !! "moid" = Some m →
  (get_endpoint_logs w server s).1 = Ok tt.
Proof.
  intros Hm.
  destruct (w_end_point_log_list w (clock s) (logs_filter m))
    as [[|r rest]|msg] eqn:Hw.
  - rewrite (get_endpoint_logs_empty w server s m Hm Hw). reflexivity.
  - rewrite (get_endpoint_logs_Reply w server s m r rest Hm Hw). reflexivity.
  - rewrite (get_endpoint_logs_Fault w server s m msg Hm Hw). reflexivity.
Qed.

Lemma set_collect_sel_settled w server s m sm :
  deref server s !! "moid" = Some m →
  deref server s !! "setting_moid" = Some sm →
  (set_collect_sel w server s).1 = Ok tt.
Proof.
  intros Hm Hsm. unfold set_collect_sel. rewrite bind_enter.
  rewrite (bind_getitem_Some server "setting_moid" sm) by exact Hsm.
  unfold try_except.
  destruct (w_update_setting w (clock s) sm) as [[]|msg] eqn:Hw.
  - rewrite (external_Reply (update_compute_server_setting sm "Collect")
               (fun n => w_update_setting w n sm)
               (log (EvCall Fset_collect_sel server (deref server s)) s).2
               tt Hw). reflexivity.
  - rewrite (external_Fault (update_compute_server_setting sm "Collect")
               (fun n => w_update_setting w n sm)
               (log (EvCall Fset_collect_sel server (deref server s)) s).2
               msg Hw).
    rewrite (bind_getitem_Some server "moid" m) by exact Hm. reflexivity.
Qed.

Lemma set_collect_sel_result w server s m :
  deref server s !! "moid" = Some m →
  (set_collect_sel w server s).1 = Ok tt
  ∨ (deref server s !! "setting_moid" = None ∧
     (set_collect_sel w server s).1 = Raise (KeyError "setting_moid")).
Proof.
  intros Hm. destruct (deref server s !! "setting_moid") as [sm|] eqn:Hsm.
  - left. exact (set_collect_sel_settled w server s m sm Hm Hsm).
  - right. split; [reflexivity |].
    exact (set_collect_sel_without_settings w server s Hsm).
Qed.

Lemma download_sel_keeps_heap w server s :
  heap (download_sel w server s).2 = heap s.
Proof.
  assert (inv (fun s' => heap s' = heap s) (fun _ => True) (download_sel w server))
    as Hinv.
  { unfold download_sel, ensure_folder, makedirs, save, open_write, write.
    inv_struct; same_leaf. }
  apply Hinv. reflexivity.
Qed.

Lemma download_sel_result w server s X F :
  deref server s !! "endpoint_moid" = Some X →
  deref server s !! "endpoint_filename" = Some F →
  match w_auth w (clock s) with
  | Reply _ => (download_sel w server s).1 = Ok tt
  | Fault msg => (download_sel w server s).1 = Raise (ExternalError msg)
  end.
Proof.
  intros Hm Hf. destruct (w_auth w (clock s)) as [[]|msg] eqn:Hauth.
  - rewrite (download_sel_after_auth w server s X F Hm Hf Hauth).
    apply try_except_print_returns.
  - unfold download_sel. rewrite bind_enter.
    rewrite (bind_getitem_Some server "endpoint_moid" X) by exact Hm.
    rewrite (bind_getitem_Some server "endpoint_filename" F) by exact Hf.
    rewrite (bind_external_Fault _ _ _ _ msg) by exact Hauth. reflexivity.
Qed.

Section RunExits.
Variable w : world.
Variable ms : list string.
Variable E : exn -> Prop.

Let I : state -> Prop := fun s => inventory_inv ms (heap s).

(** Either the exception of line 103 is allowed, or it cannot happen. *)
Hypothesis E_setting :
  E (KeyError "setting_moid")
  ∨ ∀ n filter, ∃ r rest, w_setting_list w n filter = Reply (r :: rest).

(** Either what the signer raises is allowed, or it cannot happen. *)
Hypothesis E_auth :
  (∀ msg, E (ExternalError msg)) ∨ ∀ n, w_auth w n = Reply tt.

(** Lines 203-207, for a server of the inventory. *)
Lemma exits_trigger_body server :
  server < length ms →
  inv I E (get_server_settings w server >>
           set_collect_sel w server >>
           get_endpoint_logs w server).
Proof.
  intros Hlt s Hs.
  pose proof (inventory_inv_get_server_settings w ms server s Hs) as H1.
  destruct (inventory_inv_moid ms s server Hs Hlt) as [m Hm].
  pose proof (get_server_settings_returns w server s m Hm) as Hr1.
  assert (E (KeyError "setting_moid")
          ∨ ∃ r, deref server (get_server_settings w server s).2
                 !! "setting_moid" = Some r) as Hset.
  { destruct E_setting as [HE | Hw]; [left; exact HE | right].
    destruct (Hw (clock s) (settings_filter m)) as (r & rest & Hreply).
    exists r. exact (get_server_settings_resolves w server s m r rest Hm Hreply). }
  destruct (get_server_settings w server s) as [r1 s1] eqn:Hgs.
  simpl in *. subst r1. rewrite (bind_Ok _ _ _ _ _ Hgs).
  pose proof (inventory_inv_set_collect_sel w ms server s1 H1) as H2.
  destruct (inventory_inv_moid ms s1 server H1 Hlt) as [m1 Hm1].
  pose proof (set_collect_sel_result w server s1 m1 Hm1) as Hr2.
  destruct (set_collect_sel w server s1) as [r2 s2] eqn:Hsc. simpl in *.
  destruct Hr2 as [-> | [Hnone ->]].
  - rewrite (bind_Ok _ _ _ _ _ Hsc).
    split; [apply inventory_inv_get_endpoint_logs, H2 |].
    destruct (inventory_inv_moid ms s2 server H2 Hlt) as [m2 Hm2].
    intros e He.
    rewrite (get_endpoint_logs_returns w server s2 m2 Hm2) in He.
    discriminate.
  - rewrite (bind_Raise _ _ _ _ _ Hsc).
    split; [exact H2 |]. intros e [= <-].
    destruct Hset as [HE | [r Hr]]; [exact HE |].
    rewrite Hr in Hnone. discriminate.
Qed.

(** Lines 212-214, for any server. *)
Lemma exits_guarded_download server :
  inv I E (do present <- contains server "endpoint_moid";
           if present then download_sel w server else ret tt).
Proof.
  intros s Hs. rewrite bind_contains.
  destruct (has_key "endpoint_moid" (deref server s)) eqn:Hk.
  - split; [unfold I; rewrite download_sel_keeps_heap; exact Hs |].
    unfold has_key in Hk. apply bool_decide_eq_true in Hk.
    destruct Hk as [X HX].
    destruct (inventory_inv_filename ms s server X Hs HX) as [F HF].
    pose proof (download_sel_result w server s X F HX HF) as Hres.
    intros e He.
    destruct (w_auth w (clock s)) as [[]|msg] eqn:Hauth.
    + rewrite Hres in He. discriminate.
    + rewrite Hres in He. injection He as <-.
      destruct E_auth as [HE | Hok]; [apply HE |].
      rewrite Hok in Hauth. discriminate.
  - split; [exact Hs | discriminate].
Qed.

Lemma exits_phases : inv I E (phases w (Some (seq 0 (length ms)))).
Proof.
  unfold phases.
  apply inv_bind; [| intros _; apply inv_bind; [| intros _; apply inv_bind;
    [| intros _; apply inv_bind; [| intros _]]]].
  - unfold trigger_phase, for_in. apply inv_for_each. intros server Hin.
    apply exits_trigger_body. apply elem_of_seq in Hin. lia.
  - inv_leaf. intros s Hs; exact Hs.
  - inv_leaf. intros s Hs; exact Hs.
  - unfold download_phase, for_in. apply inv_for_each. intros server _.
    apply exits_guarded_download.
  - inv_leaf. intros s Hs; exact Hs.
Qed.
End RunExits.

Lemma phases_from_inventory w d f servers (E : exn -> Prop) :
  E (KeyError "setting_moid")
  ∨ (∀ n filter, ∃ r rest, w_setting_list w n filter = Reply (r :: rest)) →
  (∀ msg, E (ExternalError msg)) ∨ (∀ n, w_auth w n = Reply tt) →
  w_summary_list w 0 = Reply servers →
  inventory_inv (ps_moid <$> non_legacy servers) (heap (run w d f).2) ∧
  ∀ e, (run w d f).1 = Raise e → E e.
Proof.
  intros HEs HEa Hw. rewrite (run_Reply w d f servers Hw).
  rewrite <- (length_fmap ps_moid (non_legacy servers)).
  apply (exits_phases w (ps_moid <$> non_legacy servers) E HEs HEa).
  apply inventory_inv_initial.
Qed.

(** X15. After any run in which the listing succeeded, the heap holds
    exactly one dict per server that is not managed in the legacy mode, in
    the order of the listing, and each dict still carries that server's
    identifier under "moid": no stage adds, drops or relabels a dict. *)
Theorem X15_dicts_keep_their_server (w : world) (d : gset string)
    (f : gmap string text) (servers : list physical_summary) :
  w_summary_list w 0 = Reply servers →
  (fun r => r !! "moid") <$> heap (run w d f).2
  = (fun sv => Some (ps_moid sv)) <$>
      filter (fun sv => ps_management_mode sv ≠ "UCSM") servers.
Proof.
  intros Hw.
  destruct (phases_from_inventory w d f servers (fun _ => True)) as [[Hm _] _];
    [left; exact Logic.I | left; intros; exact Logic.I | exact Hw |].
  unfold moids in Hm. rewrite Hm, <- list_fmap_compose. reflexivity.
Qed.

Lemma X15_dicts_witness :
  w_summary_list world_rest_fails 0 = Reply [server_A; server_U; server_B] ∧
  (fun r => r !! "moid") <$> heap (run world_rest_fails ∅ ∅).2
  = (fun sv => Some (ps_moid sv)) <$>
      filter (fun sv => ps_management_mode sv ≠ "UCSM")
        [server_A; server_U; server_B].
Proof.
  split; [reflexivity |].
  apply (X15_dicts_keep_their_server world_rest_fails ∅ ∅
           [server_A; server_U; server_B]). reflexivity.
Defined.

(** X16. When the listing succeeds, every settings query answers with at
    least one result and the request signer can be built, the run returns and
    ends with the final message, whatever the update calls, the log queries,
    the download host and the file system do. *)
Theorem X16_run_returns_when_settings_resolve (w : world) (d : gset string)
    (f : gmap string text) (servers : list physical_summary) :
  w_summary_list w 0 = Reply servers →
  (∀ n filter, ∃ r rest, w_setting_list w n filter = Reply (r :: rest)) →
  (∀ n, w_auth w n = Reply tt) →
  (run w d f).1 = Ok tt ∧
  last (trace (run w d f).2) = Some (EvPrint FINISHED).
Proof.
  intros Hw Hset Hauth.
  destruct (phases_from_inventory w d f servers (fun _ => False)) as [_ Hexn];
    [right; exact Hset | right; exact Hauth | exact Hw |].
  assert ((run w d f).1 = Ok tt) as Hok.
  { destruct (run w d f).1 as [[]|e]; [reflexivity |].
    destruct (Hexn e eq_refl). }
  split; [exact Hok |].
  apply final_message_when_returning. exact Hok.
Qed.

Lemma X16_run_returns_witness :
  w_summary_list world_rest_fails 0 = Reply [server_A; server_U; server_B] ∧
  (run world_rest_fails ∅ ∅).1 = Ok tt ∧
  last (trace (run world_rest_fails ∅ ∅).2) = Some (EvPrint FINISHED).
Proof.
  split; [reflexivity |].
  apply (X16_run_returns_when_settings_resolve world_rest_fails ∅ ∅
           [server_A; server_U; server_B]).
  - reflexivity.
  - intros n filter. exists "setting-1", []. reflexivity.
  - intros n. reflexivity.
Defined.

(** In that world both remaining servers are triggered, one log is
    resolved, its download fails, and nothing is written. *)
Example everything_else_fails :
  console (trace (run world_rest_fails ∅ ∅).2)
  = [WARNING;
     trigger_failure_line "A" "update refused";
     logs_failure_line "A" "no logs";
     trigger_failure_line "B" "update refused";
     WAITING; "404 Not Found"; FINISHED] ∧
  downloaded (trace (run world_rest_fails ∅ ∅).2) = [1] ∧
  map_to_list (files (run world_rest_fails ∅ ∅).2) = [].
Proof. repeat split; vm_compute; reflexivity. Qed.

(** ** Plain text *)

Lemma decode_utf8_ascii (bs : list N) :
  Forall (fun b => (b < 128)%N) bs → decode_utf8 bs = Some bs.
Proof.
  induction 1 as [|b bs Hb _ IH]; [reflexivity |].
  simpl. apply N.ltb_lt in Hb. rewrite Hb, IH. reflexivity.
Qed.

(** X18. A body made of ASCII bytes always decodes: when the download, the
    folder step, the opening and the writing succeed, the file holds exactly
    the characters of the body, one per byte. *)
Theorem X18_ascii_body_is_saved_verbatim (w : world) (s : state)
    (server : nat) (X F : string) (body : list byte) :
  deref server s !! "endpoint_moid" = Some X →
  deref server s !! "endpoint_filename" = Some F →
  Forall (fun b => (Byte.to_N b < 128)%N) body →
  (∀ n, w_auth w n = Reply tt) →
  (∀ n, w_get w n (request_url w X) = Reply body) →
  (∀ n, w_makedirs w n (folder_path w) = Reply tt) →
  (∀ n, w_open w n (os_path_join (folder_path w) F) = Reply tt) →
  (∀ n, w_write w n (os_path_join (folder_path w) F) = Reply tt) →
  (download_sel w server s).1 = Ok tt ∧
  files (download_sel w server s).2 !! os_path_join (folder_path w) F
    = Some (Byte.to_N <$> body).
Proof.
  intros Hm Hf Hascii Hauth Hget Hmk Ho Hw.
  assert (decode_utf8 (Byte.to_N <$> body) = Some (Byte.to_N <$> body)) as Hd.
  { apply decode_utf8_ascii, Forall_fmap. exact Hascii. }
  destruct (download_sel_reaches_save w s server X F body Hm Hf Hauth Hget Hmk)
    as (s' & Hfiles & ->).
  rewrite (try_except_Ok _ _ _ _ _
             (save_decodable w _ F body _ s' Ho Hw Hd)).
  simpl. split; [reflexivity | apply lookup_insert_eq].
Qed.

Lemma X18_ascii_body_witness :
  deref 0 (resolved "X" "sel.txt") !! "endpoint_moid" = Some "X" ∧
  deref 0 (resolved "X" "sel.txt") !! "endpoint_filename" = Some "sel.txt" ∧
  Forall (fun b => (Byte.to_N b < 128)%N) body_hi ∧
  (download_sel world_mixed 0 (resolved "X" "sel.txt")).1 = Ok tt ∧
  files (download_sel world_mixed 0 (resolved "X" "sel.txt")).2
    !! os_path_join (folder_path world_mixed) "sel.txt"
    = Some (Byte.to_N <$> body_hi).
Proof.
  split; [reflexivity |]. split; [reflexivity |].
  split; [repeat constructor |].
  apply (X18_ascii_body_is_saved_verbatim world_mixed (resolved "X" "sel.txt")
           0 "X" "sel.txt" body_hi);
    first [reflexivity | repeat constructor | intros; reflexivity].
Defined.

(** ** The order of the downloads *)

Lemma downloaded_app tr1 tr2 :
  downloaded (tr1 ++ tr2) = downloaded tr1 ++ downloaded tr2.
Proof. unfold downloaded. apply omap_app. Qed.

Lemma downloaded_none tr :
  Forall (fun ev => not_download_call ev = true) tr → downloaded tr = [].
Proof.
  induction 1 as [|ev tr Hev _ IH]; [reflexivity |].
  change (ev :: tr) with ([ev] ++ tr). rewrite downloaded_app, IH.
  destruct ev as [| [] | |]; try reflexivity. discriminate Hev.
Qed.

Ltac quiet_leaf :=
  intros;
  first
    [ exact Logic.I
    | apply tr_inv_log; [reflexivity | assumption]
    | eapply tr_inv_same; [| eassumption]; reflexivity ].

(** After its entry, the downloader enters no downloader. *)
Lemma download_sel_one_entry w server s :
  ∃ post,
    trace (download_sel w server s).2
    = trace s ++ EvCall Fdownload_sel server (deref server s) :: post ∧
    downloaded post = [].
Proof.
  unfold download_sel. rewrite bind_enter.
  set (ev := EvCall Fdownload_sel server (deref server s)).
  match goal with
  | |- ∃ post, trace (?m ?s0).2 = _ ∧ _ =>
      assert (inv (tr_inv (trace s ++ [ev]) not_download_call)
                  (fun _ => True) m) as Hinv
  end.
  { unfold ensure_folder, makedirs, save, open_write, write.
    inv_struct; quiet_leaf. }
  destruct (Hinv (log ev s).2) as [(post & Htr & Hpost) _].
  { exists []; split; [simpl; rewrite app_nil_r; reflexivity | constructor]. }
  exists post. split; [rewrite Htr, <- app_assoc; reflexivity |].
  apply downloaded_none, Hpost.
Qed.

(** The second loop enters the downloader for servers of its list only,
    each at most once, in the order of the list. *)
Lemma download_phase_in_order w l s :
  ∃ post,
    trace (download_phase w (Some l) s).2 = trace s ++ post ∧
    downloaded post `sublist_of` l.
Proof.
  unfold download_phase, for_in.
  revert s; induction l as [|server l IH]; intros s.
  - exists []; split; [simpl; rewrite app_nil_r; reflexivity | constructor].
  - simpl. unfold bind at 1. rewrite bind_contains.
    destruct (has_key "endpoint_moid" (deref server s)).
    + destruct (download_sel_one_entry w server s) as (p1 & Htr1 & Hd1).
      destruct (download_sel w server s) as [[[]|e] s1]; simpl in Htr1.
      * destruct (IH s1) as (p2 & Htr2 & Hd2).
        exists ((EvCall Fdownload_sel server (deref server s) :: p1) ++ p2).
        split; [rewrite Htr2, Htr1, <- app_assoc; reflexivity |].
        rewrite downloaded_app.
        change (EvCall Fdownload_sel server (deref server s) :: p1)
          with ([EvCall Fdownload_sel server (deref server s)] ++ p1).
        rewrite downloaded_app, Hd1. simpl.
        apply sublist_skip. exact Hd2.
      * exists (EvCall Fdownload_sel server (deref server s) :: p1).
        split; [exact Htr1 |].
        change (EvCall Fdownload_sel server (deref server s) :: p1)
          with ([EvCall Fdownload_sel server (deref server s)] ++ p1).
        rewrite downloaded_app, Hd1. simpl.
        apply sublist_skip, sublist_nil_l.
    + destruct (IH s) as (p2 & Htr2 & Hd2).
      exists p2. split; [exact Htr2 | apply sublist_cons; exact Hd2].
Qed.

(** The first loop enters no downloader. *)
Lemma trigger_phase_no_download w l s :
  downloaded (trace s) = [] →
  downloaded (trace (trigger_phase w l s).2) = [].
Proof.
  intros Hs.
  destruct (run_inv_trigger_phase w (fun _ => True) (trace s) not_download_call
              (fun _ => True)) with (l := l) (s := s)
    as [[_ (post & Htr & Hpost)] _];
    try (intros; first [exact Logic.I | reflexivity]).
  - intros fn server h _ H. destruct fn; try reflexivity. discriminate.
  - split; [exact Logic.I | apply tr_inv_start].
  - rewrite Htr, downloaded_app, Hs. apply downloaded_none, Hpost.
Qed.

(** X19. In every run the downloader is entered for dicts of the inventory
    only, at most once for each, and in the order of the inventory. *)
Theorem X19_downloads_follow_the_inventory (w : world) (d : gset string)
    (f : gmap string text) :
  downloaded (trace (run w d f).2)
    `sublist_of` seq 0 (length (heap (run w d f).2)).
Proof.
  destruct (w_summary_list w 0) as [servers|msg] eqn:Hw.
  - pose proof (phases_from_inventory w d f servers (fun _ => True)
                  (or_introl Logic.I) (or_introl (fun _ => Logic.I)) Hw)
      as [[Hm _] _].
    assert (length (heap (run w d f).2) = length (non_legacy servers)) as Hlen.
    { apply (f_equal length) in Hm. unfold moids in Hm.
      rewrite !length_fmap in Hm. exact Hm. }
    rewrite Hlen. rewrite (run_Reply w d f servers Hw). unfold phases.
    set (l := seq 0 (length (non_legacy servers))).
    match goal with
    | |- context [bind (trigger_phase w (Some l)) _ ?s0] => set (s2 := s0)
    end.
    pose proof (trigger_phase_no_download w (Some l) s2 eq_refl) as Hd3.
    destruct (trigger_phase w (Some l) s2) as [[[]|e] s3] eqn:Htrig.
    + rewrite (bind_Ok _ _ _ _ _ Htrig).
      rewrite (bind_Ok (print WAITING) _ s3 tt (print WAITING s3).2)
        by reflexivity.
      set (s5 := (sleep 5 (print WAITING s3).2).2).
      rewrite (bind_Ok (sleep 5) _ (print WAITING s3).2 tt s5) by reflexivity.
      assert (downloaded (trace s5) = []) as Hd5.
      { subst s5; simpl. rewrite !downloaded_app. simpl in Hd3.
        rewrite Hd3. reflexivity. }
      destruct (download_phase_in_order w l s5) as (post & Htr6 & Hsub).
      destruct (download_phase w (Some l) s5) as [[[]|e] s6] eqn:Hdown;
        cbn [snd] in Htr6.
      * rewrite (bind_Ok _ _ _ _ _ Hdown). simpl.
        rewrite Htr6, !downloaded_app, Hd5. simpl.
        rewrite app_nil_r. exact Hsub.
      * rewrite (bind_Raise _ _ _ _ _ Hdown). simpl.
        rewrite Htr6, downloaded_app, Hd5. exact Hsub.
    + rewrite (bind_Raise _ _ _ _ _ Htrig). simpl. simpl in Hd3.
      rewrite Hd3. apply sublist_nil_l.
  - unfold run, main.
    rewrite (bind_Ok (print WARNING) _ (initial d f) tt
               (log (EvPrint WARNING) (initial d f)).2) by reflexivity.
    rewrite (bind_Ok _ _ _ _ _
               (get_server_list_Fault w (log (EvPrint WARNING) (initial d f)).2
                  msg Hw)).
    simpl. constructor.
Qed.

(** Three downloads, in the order of the inventory. *)
Example downloads_in_inventory_order :
  downloaded (trace (run world_three ∅ ∅).2) = [0; 1; 2] ∧
  seq 0 (length (heap (run world_three ∅ ∅).2)) = [0; 1; 2].
Proof. split; vm_compute; reflexivity. Qed.

(** * The output folder, created where it is found absent *)

Lemma save_keeps_folder w p path filename content s :
  created (trace (save w path filename content s).2) = created (trace s) ∧
  (path_exists p s = true →
   path_exists p (save w path filename content s).2 = true).
Proof.
  assert (inv (fun s' => created (trace s') = created (trace s) ∧
                         (path_exists p s = true → path_exists p s' = true))
              (fun _ => True) (save w path filename content)) as Hinv.
  { unfold save, open_write, write.
    inv_struct;
      (intros;
       match goal with
       | Hinv : _ ∧ _ |- _ => destruct Hinv as [Hc Hp]
       end;
       split;
       [ first [ rewrite created_log by reflexivity; exact Hc
               | unfold print; rewrite created_log by reflexivity; exact Hc
               | simpl; exact Hc ]
       | intros H;
         first [ apply path_exists_put_file, Hp, H | exact (Hp H) ] ]). }
  apply Hinv. split; [reflexivity | auto].
Qed.

(** An invocation of the downloader that gets the body, finds the folder
    absent and is allowed to create it, creates it. *)
Lemma download_sel_creates_folder w server s X F body :
  deref server s !! "endpoint_moid" = Some X →
  deref server s !! "endpoint_filename" = Some F →
  w_auth w (clock s) = Reply tt →
  w_get w (S (clock s)) (request_url w X) = Reply body →
  path_exists (folder_path w) s = false →
  w_makedirs w (S (S (clock s))) (folder_path w) = Reply tt →
  path_exists (folder_path w) (download_sel w server s).2 = true ∧
  created (trace (download_sel w server s).2) = S (created (trace s)).
Proof.
  intros Hm Hf Hauth Hget Hp Hmk.
  rewrite (download_sel_after_get w server s X F body Hm Hf Hauth Hget).
  unfold try_except.
  rewrite (bind_Ok _ _ _ _ _
             (ensure_folder_Reply w (before_save w server X s) Hp Hmk)).
  match goal with
  | |- context [save w ?path F body ?s4] =>
      destruct (save_keeps_folder w (folder_path w) path F body s4)
        as [Hc Hex];
      assert (path_exists (folder_path w) s4 = true) as Hp4;
      [ unfold path_exists; simpl; apply orb_true_iff; left;
        apply bool_decide_eq_true; set_solver |];
      assert (created (trace s4) = S (created (trace s))) as Hc4;
      [ simpl; rewrite !created_app, !created_one; simpl; lia |];
      specialize (Hex Hp4);
      destruct (save w path F body s4) as [[[]|e] s5]
  end; simpl in *.
  - split; [exact Hex | rewrite Hc, Hc4; reflexivity].
  - split; [exact Hex |].
    rewrite created_app, created_one, Hc, Hc4. simpl. lia.
Qed.

(** C8. In one run the output folder is created at most once; the
    folder-ensuring step (lines 181-183) never raises [FileExistsError], does
    nothing when the folder is there, and so does nothing when repeated after
    it has succeeded.  The creation happens where the folder is found absent:
    the step, and so the invocation of the downloader that reaches it, then
    calls [os.makedirs] and, when that succeeds, the folder is there and
    exactly one creation has been added. *)
Theorem C8_folder_created_at_most_once (w : world) :
  (∀ d f, (created (trace (run w d f).2) ≤ 1)%nat) ∧
  (∀ s, is_file_exists_error (ensure_folder w s).1 = false) ∧
  (∀ s, path_exists (folder_path w) s = true →
        ensure_folder w s = (Ok tt, s)) ∧
  (∀ s, (ensure_folder w s).1 = Ok tt →
        ensure_folder w (ensure_folder w s).2 =
        (Ok tt, (ensure_folder w s).2)) ∧
  (∀ s, path_exists (folder_path w) s = false →
        w_makedirs w (clock s) (folder_path w) = Reply tt →
        (ensure_folder w s).1 = Ok tt ∧
        path_exists (folder_path w) (ensure_folder w s).2 = true ∧
        folder_path w ∈ dirs (ensure_folder w s).2 ∧
        calls (trace (ensure_folder w s).2)
          = calls (trace s) ++ [os_makedirs (folder_path w)] ∧
        created (trace (ensure_folder w s).2) = S (created (trace s))) ∧
  (∀ server s X F body,
        deref server s !! "endpoint_moid" = Some X →
        deref server s !! "endpoint_filename" = Some F →
        w_auth w (clock s) = Reply tt →
        w_get w (S (clock s)) (request_url w X) = Reply body →
        path_exists (folder_path w) s = false →
        w_makedirs w (S (S (clock s))) (folder_path w) = Reply tt →
        path_exists (folder_path w) (download_sel w server s).2 = true ∧
        created (trace (download_sel w server s).2) = S (created (trace s))).
Proof.
  split; [| split; [| split; [| split; [| split]]]].
  - intros d f.
    destruct (folder_inv_main w (initial d f)) as [[Hle _] _]; [| exact Hle].
    split; [apply Nat.le_0_l | discriminate].
  - apply ensure_folder_no_file_exists_error.
  - apply ensure_folder_present.
  - intros s Hok. apply ensure_folder_present, ensure_folder_Ok, Hok.
  - intros s Hp Hmk.
    destruct (ensure_folder_creates_when_absent w s Hp Hmk) as [Hok Hc].
    split; [exact Hok |]. split; [apply ensure_folder_Ok, Hok |].
    split; [| split; [| exact Hc]];
      rewrite (ensure_folder_Reply w s Hp Hmk); simpl.
    + set_solver.
    + rewrite !calls_app. simpl. rewrite app_nil_r. reflexivity.
  - intros server s X F body. apply download_sel_creates_folder.
Qed.

(** From an empty file system: the step creates the folder, and so does the
    downloader; the folder is then there, and repeating the step changes
    nothing. *)
Lemma C8_folder_witness :
  (ensure_folder world_mixed (initial ∅ ∅)).1 = Ok tt ∧
  ensure_folder world_mixed (ensure_folder world_mixed (initial ∅ ∅)).2 =
  (Ok tt, (ensure_folder world_mixed (initial ∅ ∅)).2) ∧
  path_exists (folder_path world_mixed) (initial {[ "/home/user/SEL_logs" ]} ∅)
    = true ∧
  ensure_folder world_mixed (initial {[ "/home/user/SEL_logs" ]} ∅) =
  (Ok tt, initial {[ "/home/user/SEL_logs" ]} ∅) ∧
  path_exists (folder_path world_mixed) (initial ∅ ∅) = false ∧
  w_makedirs world_mixed (clock (initial ∅ ∅)) (folder_path world_mixed)
    = Reply tt ∧
  ((ensure_folder world_mixed (initial ∅ ∅)).1 = Ok tt ∧
   path_exists (folder_path world_mixed)
     (ensure_folder world_mixed (initial ∅ ∅)).2 = true ∧
   folder_path world_mixed ∈ dirs (ensure_folder world_mixed (initial ∅ ∅)).2 ∧
   calls (trace (ensure_folder world_mixed (initial ∅ ∅)).2)
     = calls (trace (initial ∅ ∅)) ++ [os_makedirs (folder_path world_mixed)] ∧
   created (trace (ensure_folder world_mixed (initial ∅ ∅)).2)
     = S (created (trace (initial ∅ ∅)))) ∧
  path_exists (folder_path world_mixed) (resolved "X" "sel.txt") = false ∧
  (path_exists (folder_path world_mixed)
     (download_sel world_mixed 0 (resolved "X" "sel.txt")).2 = true ∧
   created (trace (download_sel world_mixed 0 (resolved "X" "sel.txt")).2)
     = S (created (trace (resolved "X" "sel.txt")))).
Proof.
  split; [reflexivity |].
  split; [apply (proj1 (proj2 (proj2 (proj2
            (C8_folder_created_at_most_once world_mixed))))); reflexivity |].
  split; [vm_compute; reflexivity |].
  split; [apply (proj1 (proj2 (proj2
            (C8_folder_created_at_most_once world_mixed))));
          vm_compute; reflexivity |].
  split; [vm_compute; reflexivity |].
  split; [reflexivity |].
  split; [apply (proj1 (proj2 (proj2 (proj2 (proj2
            (C8_folder_created_at_most_once world_mixed))))));
          [vm_compute; reflexivity | reflexivity] |].
  split; [vm_compute; reflexivity |].
  apply (proj2 (proj2 (proj2 (proj2 (proj2
           (C8_folder_created_at_most_once world_mixed)))))
           0 (resolved "X" "sel.txt") "X" "sel.txt" body_hi);
    first [reflexivity | vm_compute; reflexivity].
Defined.

(** * The two log fields between lines 127 and 128 *)

(** The log resolver passes through the state reached after line 127: what
    remains is the assignment of line 128.  In that state the dict has the
    log identifier. *)
Lemma get_endpoint_logs_passes_line_127 w server s m r rest :
  deref server s !! "moid" = Some m →
  w_end_point_log_list w (clock s) (logs_filter m) = Reply (r :: rest) →
  (get_endpoint_logs_to_line_127 w server s).1 = Ok tt ∧
  get_endpoint_logs w server s
  = setitem server "endpoint_filename" (epl_file_name r)
      (get_endpoint_logs_to_line_127 w server s).2 ∧
  deref server (get_endpoint_logs_to_line_127 w server s).2
  = <[ "endpoint_moid" := epl_moid r ]> (deref server s).
Proof.
  intros Hm Hw.
  rewrite (get_endpoint_logs_Reply w server s m r rest Hm Hw).
  unfold get_endpoint_logs_to_line_127. rewrite bind_enter.
  rewrite (bind_getitem_Some server "moid" m) by exact Hm. cbv zeta.
  fold (logs_filter m).
  rewrite (bind_external_Reply _ _ _ _ (r :: rest)) by exact Hw.
  cbn [first bind ret setitem fst snd].
  split; [reflexivity |]. split; [reflexivity |].
  unfold deref at 1; simpl. rewrite list_lookup_alter_eq.
  rewrite (deref_Some server s "moid" m Hm). reflexivity.
Qed.


Example after_line_127 :
  has_key "endpoint_moid"
    (deref 0 (get_endpoint_logs_to_line_127 world_mixed 0 (listed "B")).2)
    = true ∧
  has_key "endpoint_filename"
    (deref 0 (get_endpoint_logs_to_line_127 world_mixed 0 (listed "B")).2)
    = false ∧
  get_endpoint_logs world_mixed 0 (listed "B")
  = setitem 0 "endpoint_filename" "sel.txt"
      (get_endpoint_logs_to_line_127 world_mixed 0 (listed "B")).2.
Proof. repeat split; vm_compute; reflexivity. Qed.

(** * How a run may end *)

Lemma inv_at_bind {A B} I E (m : M A) (k : A -> M B) :
  inv_at I E m → (∀ a, inv_at I E (k a)) → inv_at I E (bind m k).
Proof.
  intros Hm Hk s Hs. unfold bind.
  destruct (Hm s Hs) as [H1 H2]. destruct (m s) as [[a|e] s1]; simpl in *.
  - apply Hk, H1.
  - split; [exact H1 | intros e' [= <-]; apply H2; reflexivity].
Qed.

Lemma inv_at_for_each {A} I E (l : list A) (body : A -> M unit) :
  (∀ x, x ∈ l → inv_at I E (body x)) → inv_at I E (for_each l body).
Proof.
  induction l as [|x l IH]; intros Hb; simpl.
  - intros s Hs; split; [exact Hs | discriminate].
  - apply inv_at_bind; [apply Hb; left | intros _; apply IH].
    intros y Hy; apply Hb; right; exact Hy.
Qed.

Lemma inv_at_log I E ev :
  (∀ s, I s → I (log ev s).2) → inv_at I E (log ev).
Proof. intros H s Hs; split; [apply H, Hs | discriminate]. Qed.

Lemma set_collect_sel_None w server s :
  deref server s !! "setting_moid" = None →
  set_collect_sel w server s =
  (Raise (KeyError "setting_moid"),
   (log (EvCall Fset_collect_sel server (deref server s)) s).2).
Proof.
  intros H. unfold set_collect_sel. rewrite bind_enter.
  rewrite bind_getitem_None by exact H. reflexivity.
Qed.

Lemma download_sel_auth_Fault w server s X F msg :
  deref server s !! "endpoint_moid" = Some X →
  deref server s !! "endpoint_filename" = Some F →
  w_auth w (clock s) = Fault msg →
  download_sel w server s =
  (Raise (ExternalError msg),
   after_call IntersightAuth false
     (log (EvCall Fdownload_sel server (deref server s)) s).2).
Proof.
  intros Hm Hf Hauth. unfold download_sel. rewrite bind_enter.
  rewrite (bind_getitem_Some server "endpoint_moid" X) by exact Hm.
  rewrite (bind_getitem_Some server "endpoint_filename" F) by exact Hf.
  rewrite (bind_external_Fault _ _ _ _ msg) by exact Hauth. reflexivity.
Qed.

Section RunEnds.
Variable w : world.
Variable ms : list string.

Let I : state -> Prop := fun s => inventory_inv ms (heap s).

(** The two ways out of the loops of [main]. *)
Let E : exn -> state -> Prop := fun e s' =>
  (e = KeyError "setting_moid" ∧
   ∃ server snapshot,
     last (trace s') = Some (EvCall Fset_collect_sel server snapshot) ∧
     snapshot !! "setting_moid" = None)
  ∨ (∃ msg n,
       e = ExternalError msg ∧
       last (trace s') = Some (EvExt IntersightAuth false) ∧
       clock s' = S n ∧ w_auth w n = Fault msg).

Lemma ends_trigger_body server :
  server < length ms →
  inv_at I E (get_server_settings w server >>
              set_collect_sel w server >>
              get_endpoint_logs w server).
Proof.
  intros Hlt s Hs.
  pose proof (inventory_inv_get_server_settings w ms server s Hs) as H1.
  destruct (inventory_inv_moid ms s server Hs Hlt) as [m Hm].
  pose proof (get_server_settings_returns w server s m Hm) as Hr1.
  destruct (get_server_settings w server s) as [r1 s1] eqn:Hgs.
  simpl in *. subst r1. rewrite (bind_Ok _ _ _ _ _ Hgs).
  pose proof (inventory_inv_set_collect_sel w ms server s1 H1) as H2.
  destruct (inventory_inv_moid ms s1 server H1 Hlt) as [m1 Hm1].
  destruct (set_collect_sel_result w server s1 m1 Hm1) as [Hr2 | [Hnone _]].
  - destruct (set_collect_sel w server s1) as [r2 s2] eqn:Hsc.
    simpl in *. subst r2. rewrite (bind_Ok _ _ _ _ _ Hsc).
    split; [apply inventory_inv_get_endpoint_logs, H2 |].
    destruct (inventory_inv_moid ms s2 server H2 Hlt) as [m2 Hm2].
    intros e He.
    rewrite (get_endpoint_logs_returns w server s2 m2 Hm2) in He.
    discriminate.
  - rewrite (bind_Raise _ _ _ _ _ (set_collect_sel_None w server s1 Hnone)).
    rewrite (set_collect_sel_None w server s1 Hnone) in H2.
    split; [exact H2 |]. intros e [= <-]. left.
    split; [reflexivity |]. exists server, (deref server s1).
    split; [apply last_snoc | exact Hnone].
Qed.

Lemma ends_guarded_download server :
  inv_at I E (do present <- contains server "endpoint_moid";
              if present then download_sel w server else ret tt).
Proof.
  intros s Hs. rewrite bind_contains.
  destruct (has_key "endpoint_moid" (deref server s)) eqn:Hk.
  - split; [unfold I; rewrite download_sel_keeps_heap; exact Hs |].
    unfold has_key in Hk. apply bool_decide_eq_true in Hk.
    destruct Hk as [X HX].
    destruct (inventory_inv_filename ms s server X Hs HX) as [F HF].
    intros e He.
    destruct (w_auth w (clock s)) as [[]|msg] eqn:Hauth.
    + pose proof (download_sel_result w server s X F HX HF) as Hres.
      rewrite Hauth in Hres. rewrite Hres in He. discriminate.
    + rewrite (download_sel_auth_Fault w server s X F msg HX HF Hauth) in *.
      injection He as <-. right. exists msg, (clock s).
      split; [reflexivity |]. split; [apply last_snoc |].
      split; [reflexivity | exact Hauth].
  - split; [exact Hs | discriminate].
Qed.

Lemma ends_phases : inv_at I E (phases w (Some (seq 0 (length ms)))).
Proof.
  unfold phases.
  apply inv_at_bind; [| intros _; apply inv_at_bind; [| intros _;
    apply inv_at_bind; [| intros _; apply inv_at_bind; [| intros _]]]].
  - unfold trigger_phase, for_in. apply inv_at_for_each. intros server Hin.
    apply ends_trigger_body. apply elem_of_seq in Hin. lia.
  - apply inv_at_log. intros s Hs; exact Hs.
  - apply inv_at_log. intros s Hs; exact Hs.
  - unfold download_phase, for_in. apply inv_at_for_each. intros server _.
    apply ends_guarded_download.
  - apply inv_at_log. intros s Hs; exact Hs.
Qed.
End RunEnds.

(** X17. Whatever the world does, a run ends in one of four ways only.  It
    returns; or it raises [TypeError] because the listing failed and the
    inventory is [None]; or it raises [KeyError] on "setting_moid", and the
    last thing that happened is the entry of the trigger with a dict lacking
    that key (line 103); or it raises what the construction of the request
    signer raised, and that failed construction is the last call made
    (line 167).  No failure of a platform query, of the download host or of
    the file system ends a run. *)
Theorem X17_how_a_run_may_end (w : world) (d : gset string)
    (f : gmap string text) :
  run_ended w (run w d f).
Proof.
  unfold run_ended.
  destruct (w_summary_list w 0) as [servers|msg] eqn:Hw.
  - rewrite (run_Reply w d f servers Hw).
    rewrite <- (length_fmap ps_moid (non_legacy servers)).
    match goal with
    | |- context [phases w ?l ?s0] =>
        destruct (ends_phases w (ps_moid <$> non_legacy servers) s0)
          as [_ Hexn]; [apply inventory_inv_initial |];
        destruct (phases w l s0) as [[[]|e] s'] eqn:Hrun
    end; simpl in *.
    + left. reflexivity.
    + destruct (Hexn e eq_refl) as [[-> Hkey] | (m & n & -> & Hauth)].
      * right; right; left. split; [reflexivity | exact Hkey].
      * right; right; right. exists m, n. split; [reflexivity | exact Hauth].
  - right; left.
    rewrite (listing_failure_always_aborts w d f msg Hw).
    split; [reflexivity |]. exists msg. reflexivity.
Qed.

(** The four ways, each on a world that takes it. *)
Example four_ways_to_end :
  (run world_mixed ∅ ∅).1 = Ok tt ∧
  (run world_listing_fails ∅ ∅).1
    = Raise (TypeError "'NoneType' object is not iterable") ∧
  (run world_A_settings_fail ∅ ∅).1 = Raise (KeyError "setting_moid") ∧
  (run world_auth_fails ∅ ∅).1 = Raise (ExternalError "key file not found") ∧
  last (trace (run world_auth_fails ∅ ∅).2) = Some (EvExt IntersightAuth false).
Proof. repeat split; vm_compute; reflexivity. Qed.
